(** * Random-Phone-Number-Generator: generation, validation and CSV output

    A shallow embedding of [generate_phone_numbers] and [save_to_csv] of
    [Random-Phone-Number-Generator.py], with the properties the
    specification states about them.

    Conventions of the embedding.
    - A Python [int] is a [Z]; [len] is [Z.of_nat] of a length.
    - A Python [str] is a [string]; a character is an [ascii], read as the
      code point of the same number (code points below 256).  On that range
      [char_isspace] and [char_isdigit] are CPython's tables.
    - [rng = random.SystemRandom()] is an explicit [RandomSource]: the index
      returned by the k-th draw.  The position in the source is threaded
      through the loop.
    - The [while] loop takes a bound on its number of iterations (fuel);
      [OutOfFuel] is the outcome of a run that needs more iterations.
    - Each [raise ValueError(...)] is a constructor of [ValueError];
      [message] is the text of the exception: the one the source gives
      it, or that of the conversion of an integer of more than 4300
      digits, which fails while the text is built.
    - The file system is a finite map from file names to the text written;
      whether a file can be opened for writing is an input of the model. *)

From Stdlib Require Import ZArith Ascii String.
From stdpp Require Import strings gmap list pretty.

Local Open Scope Z_scope.

(** ** Python strings *)

Module Str.

Definition ord (c : ascii) : N := N_of_ascii c.

(** [len(s)] *)
Definition len (s : string) : Z := Z.of_nat (String.length s).

(** Per-character test behind [str.isspace] and [str.strip()]:
    TAB..CR, FS..US, SPACE, NEL and NBSP. *)
Definition char_isspace (c : ascii) : bool :=
  let n := ord c in
  ((9 <=? n) && (n <=? 13) || (28 <=? n) && (n <=? 32)
   || (n =? 133) || (n =? 160))%N.

(** Per-character test behind [str.isdigit]: 0..9 and the superscript
    digits two, three and one. *)
Definition char_isdigit (c : ascii) : bool :=
  let n := ord c in
  ((48 <=? n) && (n <=? 57) || (n =? 178) || (n =? 179) || (n =? 185))%N.

Definition is_plus (c : ascii) : bool := bool_decide (c = "+"%char).

Fixpoint all_chars (p : ascii -> bool) (s : string) : bool :=
  match s with
  | EmptyString => true
  | String c s' => p c && all_chars p s'
  end.

(** [s.isdigit()]: every character is a digit and there is at least one. *)
Definition isdigit (s : string) : bool :=
  match s with
  | EmptyString => false
  | String _ _ => all_chars char_isdigit s
  end.

(** Truth value of a string: non-empty. *)
Definition truthy (s : string) : bool :=
  match s with
  | EmptyString => false
  | String _ _ => true
  end.

(** [s.lstrip(chars)], the characters to remove given as a test. *)
Fixpoint lstrip (p : ascii -> bool) (s : string) : string :=
  match s with
  | EmptyString => EmptyString
  | String c s' => if p c then lstrip p s' else s
  end.

(** [s.rstrip(chars)] *)
Fixpoint rstrip (p : ascii -> bool) (s : string) : string :=
  match s with
  | EmptyString => EmptyString
  | String c s' =>
      match rstrip p s' with
      | EmptyString => if p c then EmptyString else String c EmptyString
      | t => String c t
      end
  end.

(** [s.strip()] *)
Definition strip (s : string) : string :=
  rstrip char_isspace (lstrip char_isspace s).

(** [s.startswith(t)] *)
Definition startswith (t s : string) : bool := String.prefix t s.

(** [str(n)] and the [{n}] of an f-string, for an [int]. *)
Definition of_int (n : Z) : string := pretty n.

End Str.

(** ** Errors *)

(** The [ValueError]s of [generate_phone_numbers], one constructor per
    [raise] statement, with the values interpolated in its message.  The
    exception that leaves the statement is a [ValueError] in each case:
    the one the statement builds or, when an integer of its message is
    too long to be converted to a string, the one of that conversion;
    [message] is the text of the exception either way. *)
Inductive ValueError : Type :=
| TotalLengthNotPositive
| CountryCodeNotDigits
| LocalCodeNotDigits
| TotalLengthTooShort (remaining_length : Z)
| CannotGenerateUnique (limit remaining_length max_possible : Z).

(** The interpreter converts an integer to a string only if it has at most
    4300 digits (its default limit): the integers below [int_str_bound]
    in absolute value. *)
Definition int_str_bound : Z := 10 ^ 4300.

(** [str(n)] and the [{n}] of an f-string where the conversion may fail;
    [None] is its [ValueError]. *)
Definition str_of_int (n : Z) : option string :=
  if Z.abs n <? int_str_bound then Some (Str.of_int n) else None.

(** The text of the [ValueError] of a failed conversion. *)
Definition int_max_str_digits_error : string :=
  "Exceeds the limit (4300 digits) for integer string conversion; use sys.set_int_max_str_digits() to increase the limit".

Definition message (e : ValueError) : string :=
  match e with
  | TotalLengthNotPositive => "total_length must be a positive integer."
  | CountryCodeNotDigits =>
      "Country code must contain digits only (you may include a leading '+')."
  | LocalCodeNotDigits => "Local code must contain digits only."
  | TotalLengthTooShort remaining_length =>
      match str_of_int remaining_length with
      | Some remaining =>
          "Total length is too short for the specified country and local codes. "
          +:+ "Need remaining random digits > 0, got " +:+ remaining +:+ "."
      | None => int_max_str_digits_error
      end
  | CannotGenerateUnique limit remaining_length max_possible =>
      match
        str_of_int limit, str_of_int remaining_length,
        str_of_int max_possible
      with
      | Some count, Some remaining, Some capacity =>
          "Cannot generate " +:+ count +:+ " unique numbers with "
          +:+ remaining +:+ " random digits. "
          +:+ "Maximum unique combinations = " +:+ capacity +:+ "."
      | _, _, _ => int_max_str_digits_error
      end
  end.

(** The error kinds of the specification.  The source has the single class
    [ValueError]; the specification's kinds are told apart by the check
    that raises: the capacity check is [CapacityExceeded], every other
    check of the configuration is [InvalidConfiguration]. *)
Inductive ErrorKind : Type := InvalidConfiguration | CapacityExceeded.

Definition kind_of (e : ValueError) : ErrorKind :=
  match e with
  | CannotGenerateUnique _ _ _ => CapacityExceeded
  | _ => InvalidConfiguration
  end.

(** Outcome of a call of [generate_phone_numbers]. *)
Inductive outcome : Type :=
| Returned (results : list string)
| Raised (e : ValueError)
| OutOfFuel.

(** ** The random source *)

(** The k-th draw of the source, as the number [_randbelow] is computed
    from; any natural number is allowed and is reduced into range. *)
Definition RandomSource : Type := nat -> nat.

(** [rng.choice(seq)] at position [pos] of the source: [seq[i]] for an
    index [i] below [len(seq)]. *)
Definition choice (rng : RandomSource) (pos : nat) (seq : string) : ascii :=
  match String.get (rng pos mod String.length seq)%nat seq with
  | Some c => c
  | None => "000"%char
  end.

(** [''.join(rng.choice('0123456789') for _ in range(n))], the draws taken
    from position [pos] on. *)
Fixpoint number_body (rng : RandomSource) (pos n : nat) : string :=
  match n with
  | O => EmptyString
  | S n' => String (choice rng pos "0123456789") (number_body rng (S pos) n')
  end.

(** ** [generate_phone_numbers] *)

Section Loop.

Variable rng : RandomSource.
Variables country_digits local_digits : string.
Variables remaining_length limit : Z.
Variables include_plus unique : bool.

(** [f"{country_digits}{local_digits}{number_body}"] *)
Definition full_number_at (pos : nat) : string :=
  country_digits +:+ local_digits
  +:+ number_body rng pos (Z.to_nat remaining_length).

(** What is appended to [results] for a full number. *)
Definition formatted (full_number : string) : string :=
  if include_plus then "+" +:+ full_number else full_number.

(** The [while len(results) < limit] loop, from the state [results],
    [seen] and the position [pos] reached in the random source. *)
Fixpoint while_loop (fuel : nat) (results : list string)
    (seen : gset string) (pos : nat) : outcome :=
  if Z.of_nat (length results) <? limit then
    match fuel with
    | O => OutOfFuel
    | S fuel' =>
        let full_number := full_number_at pos in
        let pos' := (pos + Z.to_nat remaining_length)%nat in
        if unique && bool_decide (full_number ∈ seen) then
          while_loop fuel' results seen pos'
        else
          let seen' := if unique then seen ∪ {[ full_number ]} else seen in
          while_loop fuel' (results ++ [formatted full_number]) seen' pos'
    end
  else Returned results.

End Loop.

Definition generate_phone_numbers (fuel : nat) (rng : RandomSource)
    (total_length : Z) (country_code local_code : string) (limit : Z)
    (include_plus unique : bool) : outcome :=
  if total_length <=? 0 then Raised TotalLengthNotPositive
  else
    let country_digits := Str.lstrip Str.is_plus (Str.strip country_code) in
    let local_digits := Str.strip local_code in
    if negb (Str.isdigit country_digits) then Raised CountryCodeNotDigits
    else if Str.truthy local_digits && negb (Str.isdigit local_digits) then
      Raised LocalCodeNotDigits
    else
      let remaining_length :=
        total_length - Str.len country_digits - Str.len local_digits in
      if remaining_length <=? 0 then
        Raised (TotalLengthTooShort remaining_length)
      else
        let max_possible := 10 ^ remaining_length in
        if unique && (max_possible <? limit) then
          Raised (CannotGenerateUnique limit remaining_length max_possible)
        else
          while_loop rng country_digits local_digits remaining_length limit
            include_plus unique fuel [] ∅ 0.

(** ** The [csv] module, for the default dialect *)

(** [csv.writer] and [csv.reader] of the Python standard library with the
    dialect [excel] that [save_to_csv] uses: delimiter [,], the double
    quote as quote character, doubled inside a field, no escape character,
    minimal quoting, line terminator CR LF, not strict.  The states of the
    reader that only an escape character reaches are left out, and so is
    its limit on the size of a field. *)
Module Csv.

Definition delimiter : ascii := ","%char.
Definition quotechar : ascii := "034"%char.
Definition CR : ascii := "013"%char.
Definition LF : ascii := "010"%char.
Definition lineterminator : string := String CR (String LF EmptyString).

Definition is_char (a c : ascii) : bool := bool_decide (c = a).

Fixpoint any_char (p : ascii → bool) (s : string) : bool :=
  match s with
  | EmptyString => false
  | String c s' => p c || any_char p s'
  end.

(** *** Writer *)

(** A character that makes the writer quote the field it occurs in. *)
Definition special (c : ascii) : bool :=
  is_char delimiter c || is_char quotechar c
  || any_char (λ t, is_char t c) lineterminator.

(** The characters of a field as they are copied into the record: a
    quote character is written twice. *)
Fixpoint doubled (field : string) : string :=
  match field with
  | EmptyString => EmptyString
  | String c s' =>
      if is_char quotechar c then String c (String c (doubled s'))
      else String c (doubled s')
  end.

(** [join_append]: the field added to the record [rec] that already
    holds [num_fields] fields. *)
Definition join_append (rec : string) (num_fields : nat) (field : string)
    : string :=
  let rec :=
    if (0 <? num_fields)%nat then rec +:+ String delimiter "" else rec in
  if any_char special field then
    rec +:+ String quotechar (doubled field) +:+ String quotechar ""
  else rec +:+ field.

(** The text [writerow(row)] writes. *)
Definition record (row : list string) : string :=
  let '(rec, num_fields) :=
    foldl (λ '(rec, n) field, (join_append rec n field, S n)) ("", 0%nat)
      row in
  let rec :=
    if (0 <? num_fields)%nat && bool_decide (rec = "") then
      String quotechar (String quotechar "")
    else rec in
  rec +:+ lineterminator.

(** [writer.writerow(row)] and [writer.writerows(rows)] on the text [f]
    written so far. *)
Definition writerow (row : list string) (f : string) : string :=
  f +:+ record row.

Definition writerows (rows : list (list string)) (f : string) : string :=
  foldl (λ f row, writerow row f) f rows.

(** *** Reader *)

(** Iteration over a text file opened without newline translation: a
    line ends after LF, after a CR that no LF follows, and at the end of
    the text.  [cur] is the line read so far. *)
Definition ends_line (c : ascii) (rest : string) : bool :=
  is_char LF c
  || is_char CR c
     && negb match rest with
             | String c' _ => is_char LF c'
             | EmptyString => false
             end.

Fixpoint readlines_from (cur text : string) : list string :=
  match text with
  | EmptyString => match cur with EmptyString => [] | _ => [cur] end
  | String c rest =>
      if ends_line c rest then
        (cur +:+ String c "") :: readlines_from "" rest
      else readlines_from (cur +:+ String c "") rest
  end.

Definition readlines (text : string) : list string := readlines_from "" text.

Inductive State : Type :=
| START_RECORD | START_FIELD | IN_FIELD | IN_QUOTED_FIELD
| QUOTE_IN_QUOTED_FIELD | EAT_CRNL.

Global Instance State_eq_dec : EqDecision State.
Proof. solve_decision. Defined.

Record Reader : Type :=
  { state : State; field : string; fields : list string }.

(** What the reader is given: a character of a line or the end of the
    line. *)
Inductive Input : Type := Chr (c : ascii) | EOL.

Definition parse_reset : Reader :=
  {| state := START_RECORD; field := ""; fields := [] |}.

Definition set_state (s : State) (r : Reader) : Reader :=
  {| state := s; field := field r; fields := fields r |}.

Definition parse_save_field (r : Reader) : Reader :=
  {| state := state r; field := ""; fields := fields r ++ [field r] |}.

Definition parse_add_char (c : ascii) (r : Reader) : Reader :=
  {| state := state r; field := field r +:+ String c ""; fields := fields r |}.

Definition is_newline (c : Input) : bool :=
  match c with
  | Chr c => is_char LF c || is_char CR c
  | EOL => true
  end.

Definition after_newline (c : Input) : State :=
  match c with EOL => START_RECORD | Chr _ => EAT_CRNL end.

Definition start_field (c : Input) (r : Reader) : option Reader :=
  if is_newline c then Some (set_state (after_newline c) (parse_save_field r))
  else match c with
       | EOL => None
       | Chr c =>
           if is_char quotechar c then Some (set_state IN_QUOTED_FIELD r)
           else if is_char delimiter c then
             Some (set_state START_FIELD (parse_save_field r))
           else Some (set_state IN_FIELD (parse_add_char c r))
       end.

(** [parse_process_char]; [None] is the error the reader raises. *)
Definition parse_process_char (c : Input) (r : Reader) : option Reader :=
  match state r with
  | START_RECORD =>
      match c with
      | EOL => Some r
      | Chr c' =>
          if is_char LF c' || is_char CR c' then Some (set_state EAT_CRNL r)
          else start_field c r
      end
  | START_FIELD => start_field c r
  | IN_FIELD =>
      if is_newline c then
        Some (set_state (after_newline c) (parse_save_field r))
      else match c with
           | EOL => None
           | Chr c =>
               if is_char delimiter c then
                 Some (set_state START_FIELD (parse_save_field r))
               else Some (parse_add_char c r)
           end
  | IN_QUOTED_FIELD =>
      match c with
      | EOL => Some r
      | Chr c =>
          if is_char quotechar c then Some (set_state QUOTE_IN_QUOTED_FIELD r)
          else Some (parse_add_char c r)
      end
  | QUOTE_IN_QUOTED_FIELD =>
      match c with
      | EOL => Some (set_state START_RECORD (parse_save_field r))
      | Chr c' =>
          if is_char quotechar c' then
            Some (set_state IN_QUOTED_FIELD (parse_add_char c' r))
          else if is_char delimiter c' then
            Some (set_state START_FIELD (parse_save_field r))
          else if is_newline c then
            Some (set_state EAT_CRNL (parse_save_field r))
          else Some (set_state IN_FIELD (parse_add_char c' r))
      end
  | EAT_CRNL =>
      match c with
      | EOL => Some (set_state START_RECORD r)
      | Chr c => if is_char LF c || is_char CR c then Some r else None
      end
  end.

(** The characters of a line, one after the other. *)
Fixpoint parse_chars (line : string) (r : Reader) : option Reader :=
  match line with
  | EmptyString => Some r
  | String c line' => parse_process_char (Chr c) r ≫= parse_chars line'
  end.

(** A line: its characters, then the end of the line. *)
Definition parse_line (line : string) (r : Reader) : option Reader :=
  parse_chars line r ≫= parse_process_char EOL.

(** The records the reader yields from the lines: a record is complete
    when the end of a line leaves the reader in [START_RECORD]; when the
    lines run out inside a record, what has been read of it is the last
    record. *)
Fixpoint read_records (lines : list string) (r : Reader)
    : option (list (list string)) :=
  match lines with
  | [] =>
      if bool_decide (field r ≠ "") || bool_decide (state r = IN_QUOTED_FIELD)
      then Some [fields (parse_save_field r)]
      else Some []
  | line :: lines' =>
      r' ← parse_line line r;
      if bool_decide (state r' = START_RECORD) then
        (fields r' ::.) <$> read_records lines' parse_reset
      else read_records lines' r'
  end.

(** [list(csv.reader(f))] for the text [f]. *)
Definition reader (text : string) : option (list (list string)) :=
  read_records (readlines text) parse_reset.

End Csv.

(** ** [save_to_csv] *)

(** The file system maps a file name to the text of the file.  The file is
    opened for writing, which creates it or empties it, without newline
    translation; the header row and one row per phone number are written;
    the text is the file's content when the file is closed.  The call is
    modelled where the file can be opened. *)
Definition save_to_csv (phone_numbers : list string) (filename : string)
    (fs : gmap string string) : gmap string string :=
  let f := "" in
  let f := Csv.writerow ["Phone Number"] f in
  let f := Csv.writerows ((λ p, [p]) <$> phone_numbers) f in
  <[filename := f]> fs.

(** The reading side of the round trip, which the program does not have:
    the file read with [csv.reader], the header row skipped, the single
    field of every other row taken.  [None] when the file is missing, the
    reader fails or a row does not have exactly one field. *)
Definition sole_field (row : list string) : option string :=
  match row with
  | [p] => Some p
  | _ => None
  end.

Definition read_phone_numbers (filename : string) (fs : gmap string string)
    : option (list string) :=
  text ← fs !! filename;
  rows ← Csv.reader text;
  match rows with
  | [] => None
  | _header :: rows' => mapM sole_field rows'
  end.

(** ** Vocabulary of the properties *)

(** [country_digits], [local_digits] and [remaining_length] as
    [generate_phone_numbers] computes them from its arguments. *)
Definition country_digits_of (country_code : string) : string :=
  Str.lstrip Str.is_plus (Str.strip country_code).

Definition local_digits_of (local_code : string) : string :=
  Str.strip local_code.

Definition remaining_length_of (total_length : Z)
    (country_code local_code : string) : Z :=
  total_length - Str.len (country_digits_of country_code)
  - Str.len (local_digits_of local_code).

(** The part of validity that does not involve the count: positive total
    length, digit-only country code, digit-only or empty local code and
    positive remaining length. *)
Definition valid_codes (total_length : Z) (country_code local_code : string)
    : Prop :=
  0 < total_length
  ∧ Str.isdigit (country_digits_of country_code) = true
  ∧ (local_digits_of local_code = ""
     ∨ Str.isdigit (local_digits_of local_code) = true)
  ∧ 0 < remaining_length_of total_length country_code local_code.

(** A valid configuration: valid codes and, under [unique], a count within
    the capacity. *)
Definition valid_configuration (total_length : Z)
    (country_code local_code : string) (limit : Z) (unique : bool) : Prop :=
  valid_codes total_length country_code local_code
  ∧ (unique = true
     → limit ≤ 10 ^ remaining_length_of total_length country_code local_code).

(** A result with its leading separator removed, if it has one. *)
Definition strip_separator (s : string) : string :=
  match s with
  | String "+" s' => s'
  | _ => s
  end.

(** One of the ten characters of ['0123456789']. *)
Definition is_decimal (c : ascii) : bool :=
  ((48 <=? Str.ord c) && (Str.ord c <=? 57))%N.

(** The full numbers formed by [n] successive iterations of the loop that
    start at position [pos] of the random source. *)
Fixpoint candidates (rng : RandomSource)
    (country_digits local_digits : string) (remaining_length : Z)
    (pos n : nat) : list string :=
  match n with
  | O => []
  | S n' =>
      full_number_at rng country_digits local_digits remaining_length pos
      :: candidates rng country_digits local_digits remaining_length
           (pos + Z.to_nat remaining_length) n'
  end.

(** Number of distinct strings of a list. *)
Definition distinct (l : list string) : nat :=
  size (list_to_set l : gset string).

(** [n] separators in a row. *)
Fixpoint pluses (n : nat) : string :=
  match n with
  | O => EmptyString
  | S n' => String "+" (pluses n')
  end.

(** Two random sources: one that always draws index 0, one that draws
    0, 1, 2, ... *)
Definition zeros : RandomSource := fun _ => 0%nat.
Definition counting : RandomSource := fun k => k.

(** A random source that makes the successive bodies of [r] digits count
    up: the body of iteration [k] is [k] written with [r] digits. *)
Definition enumerating (r : nat) : RandomSource :=
  λ pos, ((pos / r) / 10 ^ (r - 1 - pos mod r) mod 10)%nat.

(** The number a string of characters 0..9 writes, after the digits
    already read into [acc]. *)
Fixpoint digits_value (acc : nat) (s : string) : nat :=
  match s with
  | EmptyString => acc
  | String c s' => digits_value (10 * acc + (nat_of_ascii c - 48)) s'
  end.

(** The reader of [Csv.reader] fed the text directly, character by
    character, with the end of a line signalled after each character that
    ends one; [inside] tells whether the current line has characters
    already.  [Csv.reader] is shown to compute the same. *)
Definition yield_record (r : Csv.Reader)
    (continue : Csv.Reader → option (list (list string)))
    : option (list (list string)) :=
  if bool_decide (Csv.state r = Csv.START_RECORD) then
    (Csv.fields r ::.) <$> continue Csv.parse_reset
  else continue r.

Fixpoint read_stream (inside : bool) (text : string) (r : Csv.Reader)
    : option (list (list string)) :=
  match text with
  | EmptyString =>
      if inside then
        Csv.parse_process_char Csv.EOL r
        ≫= λ r', yield_record r' (Csv.read_records [])
      else Csv.read_records [] r
  | String c rest =>
      Csv.parse_process_char (Csv.Chr c) r
      ≫= λ r1,
        if Csv.ends_line c rest then
          Csv.parse_process_char Csv.EOL r1
          ≫= λ r2, yield_record r2 (read_stream false rest)
        else read_stream true rest r1
  end.

(** ** More of Python's strings and numbers *)

Module Py.

(** [c.lower()] for one character: A..Z and the capital letters of the
    upper half of the range go to their small letters. *)
Definition char_lower (c : ascii) : ascii :=
  let n := Str.ord c in
  if ((65 <=? n) && (n <=? 90)
      || (192 <=? n) && (n <=? 222) && negb (n =? 215))%N
  then ascii_of_N (n + 32)
  else c.

(** [s.lower()] *)
Fixpoint lower (s : string) : string :=
  match s with
  | EmptyString => EmptyString
  | String c s' => String (char_lower c) (lower s')
  end.

(** White space as [int] skips it around the number: TAB..CR and SPACE,
    and the white space outside ASCII (NEL, NBSP), which [int] turns into
    spaces first. *)
Definition int_isspace (c : ascii) : bool :=
  let n := Str.ord c in
  ((9 <=? n) && (n <=? 13) || (n =? 32) || (n =? 133) || (n =? 160))%N.

(** The value of a decimal digit 0..9. *)
Definition digit_value (c : ascii) : option Z :=
  let n := Str.ord c in
  if ((48 <=? n) && (n <=? 57))%N then Some (Z.of_N n - 48) else None.

(** The digits of a number after its first digit: digits and single
    underscores, each underscore followed by a digit.  [acc] is the value
    and [count] the number of digits read so far; the result adds what is
    left of the string. *)
Fixpoint int_digits (acc : Z) (count : nat) (s : string)
    : option (Z * nat * string) :=
  match s with
  | EmptyString => Some (acc, count, s)
  | String c s' =>
      match digit_value c with
      | Some d => int_digits (10 * acc + d) (S count) s'
      | None =>
          if bool_decide (c = "_"%char) then
            match s' with
            | String c' s'' =>
                match digit_value c' with
                | Some d => int_digits (10 * acc + d) (S count) s''
                | None => None
                end
            | EmptyString => None
            end
          else Some (acc, count, s)
      end
  end.

(** The limit on the number of digits of a string converted to an
    integer, as the interpreter sets it by default. *)
Definition int_max_str_digits : nat := 4300.

(** [int(s)] for a string; [None] is [ValueError]. *)
Definition int (s : string) : option Z :=
  let s := Str.lstrip int_isspace s in
  let '(negative, s) :=
    match s with
    | String "+" s' => (false, s')
    | String "-" s' => (true, s')
    | _ => (false, s)
    end in
  match s with
  | EmptyString => None
  | String c s' =>
      match digit_value c with
      | None => None
      | Some d =>
          match int_digits d 1 s' with
          | None => None
          | Some (value, count, rest) =>
              if Str.all_chars int_isspace rest
                 && (count <=? int_max_str_digits)%nat
              then Some (if negative then - value else value)
              else None
          end
      end
  end.

End Py.

(** ** The console and the command line *)

(** What the program writes to standard output: the prompt of an [input]
    call, or one of its [print] statements with the values it shows;
    [Error] and [SaveError] are the print of the handler of [main], for the
    [ValueError] of the generation and for the exception of the saving,
    of which the text is kept.  Two of the printed texts have a dash
    outside the character range of [string]; [printed_text] gives every
    text as code points.  Standard output is taken to show every
    character. *)
Inductive Printed : Type :=
| Prompt (text : string)
| PleaseEnterValidInteger
| InteractiveBanner
| CountryCodeRequired
| Success (generated : Z) (filename : string)
| Error (e : ValueError)
| SaveError (text : string).

Definition code_points (s : string) : list N :=
  N_of_ascii <$> list_ascii_of_string s.

Definition em_dash : N := 8212%N.

Definition printed_text (p : Printed) : list N :=
  match p with
  | Prompt text => code_points text
  | PleaseEnterValidInteger =>
      code_points "Please enter a valid integer." ++ [10%N]
  | InteractiveBanner =>
      code_points "Random Phone Number Generator " ++ [em_dash]
      ++ code_points " Interactive Mode" ++ [10%N]
  | CountryCodeRequired => code_points "Country code is required." ++ [10%N]
  | Success generated filename =>
      code_points "Success " ++ [em_dash] ++ code_points " generated "
      ++ code_points (Str.of_int generated)
      ++ code_points " phone numbers and saved to '"
      ++ code_points filename ++ code_points "'." ++ [10%N]
  | Error e => code_points "Error: " ++ code_points (message e) ++ [10%N]
  | SaveError text => code_points "Error: " ++ code_points text ++ [10%N]
  end.

(** The world a run acts on: the lines still to be read from standard
    input, what has been written to standard output, and the files. *)
Record World : Type :=
  { stdin : list string; stdout : list Printed; files : gmap string string }.

(** How a computation ends: with a value, with [SystemExit], with the
    [EOFError] of an [input] call that finds no line, or not within the
    bound given to the generation loop. *)
Inductive Result (A : Type) : Type :=
| Done (a : A) (w : World)
| SystemExit (code : Z) (w : World)
| EOFError (w : World)
| Unfinished.

Arguments Done {A} a w.
Arguments SystemExit {A} code w.
Arguments EOFError {A} w.
Arguments Unfinished {A}.

Definition IO (A : Type) : Type := World → Result A.

Definition io_ret {A} (a : A) : IO A := λ w, Done a w.

Definition io_bind {A B} (m : IO A) (k : A → IO B) : IO B :=
  λ w,
    match m w with
    | Done a w' => k a w'
    | SystemExit code w' => SystemExit code w'
    | EOFError w' => EOFError w'
    | Unfinished => Unfinished
    end.

#[global] Instance IO_ret : MRet IO := @io_ret.
#[global] Instance IO_bind : MBind IO := λ A B k m, io_bind m k.

Definition write (p : Printed) (w : World) : World :=
  {| stdin := stdin w; stdout := stdout w ++ [p]; files := files w |}.

(** [print(...)], one of the program's print statements. *)
Definition print (p : Printed) : IO unit := λ w, Done tt (write p w).

(** [input(prompt)]: the prompt is written, then a line is read. *)
Definition input (prompt : string) : IO string :=
  λ w,
    match stdin w with
    | [] => EOFError (write (Prompt prompt) w)
    | line :: lines =>
        Done line
          {| stdin := lines; stdout := stdout w ++ [Prompt prompt];
             files := files w |}
    end.

(** [sys.exit(code)] *)
Definition sys_exit {A} (code : Z) : IO A := λ w, SystemExit code w.

(** The [while True] loop of [prompt_int] on the lines of standard input:
    each iteration reads one. *)
Fixpoint prompt_int_loop (prompt_text : string) (default : option Z)
    (lines : list string) (w : World) : Result Z :=
  match lines with
  | [] =>
      EOFError
        {| stdin := []; stdout := stdout w ++ [Prompt prompt_text];
           files := files w |}
  | line :: lines' =>
      let w :=
        {| stdin := lines'; stdout := stdout w ++ [Prompt prompt_text];
           files := files w |} in
      let raw := Str.strip line in
      match raw, default with
      | EmptyString, Some d => Done d w
      | _, _ =>
          match Py.int raw with
          | Some val => Done val w
          | None =>
              prompt_int_loop prompt_text default lines'
                (write PleaseEnterValidInteger w)
          end
      end
  end.

Definition prompt_int (prompt_text : string) (default : option Z) : IO Z :=
  λ w, prompt_int_loop prompt_text default (stdin w) w.

(** The namespace [main] works with: of [interactive_mode], or of the
    command line when it gives the total length and the country code. *)
Record Namespace : Type :=
  { total : Z; country : string; local : string; count : Z; out : string;
    no_plus : bool; no_unique : bool }.

(** The namespace [parser.parse_args()] returns for a command line:
    [--total] and [--country] may be missing. *)
Record CommandLine : Type :=
  { arg_total : option Z; arg_country : option string; arg_local : string;
    arg_count : Z; arg_out : string; arg_no_plus : bool;
    arg_no_unique : bool; arg_interactive : bool }.

(** [x or default] for a string. *)
Definition or_else (x default : string) : string :=
  if Str.truthy x then x else default.

Definition interactive_mode : IO Namespace :=
  print InteractiveBanner ≫= λ _,
  total_length ←
    prompt_int
      "Enter total numeric length of phone number (digits only, exclude '+'): "
      None;
  line ← input "Enter the country code (e.g., +1, 1, +91, 91): ";
  let country_code := Str.strip line in
  if negb (Str.truthy country_code) then
    print CountryCodeRequired ≫= λ _, sys_exit 1
  else
    line ←
      input "Enter the local code (e.g., 415, 011, 020). If none, press Enter: ";
    let local_code := or_else (Str.strip line) "" in
    count ← prompt_int "Enter how many phone numbers to generate: " None;
    line ← input "Enter output CSV filename (default: phone_numbers.csv): ";
    let filename := or_else (Str.strip line) "phone_numbers.csv" in
    line ← input "Include '+' sign in output? (Y/n) [default: Y]: ";
    let include_plus_str := Py.lower (Str.strip line) in
    let include_plus := negb (bool_decide (include_plus_str = "n")) in
    line ← input "Require unique phone numbers? (Y/n) [default: Y]: ";
    let unique_str := Py.lower (Str.strip line) in
    let unique := negb (bool_decide (unique_str = "n")) in
    mret
      {| total := total_length; country := country_code;
         local := local_code; count := count; out := filename;
         no_plus := negb include_plus; no_unique := negb unique |}.

(** [parse_args], from the namespace the argument parser returns. *)
Definition parse_args (args : CommandLine) : IO Namespace :=
  match arg_interactive args, arg_total args, arg_country args with
  | false, Some total_length, Some country_code =>
      mret
        {| total := total_length; country := country_code;
           local := arg_local args; count := arg_count args;
           out := arg_out args; no_plus := arg_no_plus args;
           no_unique := arg_no_unique args |}
  | _, _, _ => interactive_mode
  end.

(** Whether [open(filename, mode="w", ...)] raises, and then the text of
    its exception: it does for the empty name and for a name with a NUL
    character; for every other name the operating system decides, by
    [opens] (a missing directory, a directory of that name, no permission:
    [Some] of the text; [None] when the file is opened).  An open that
    raises leaves the files as they are. *)
Definition open_error (opens : string → option string) (filename : string)
    : option string :=
  if bool_decide (filename = "") then
    Some "[Errno 2] No such file or directory: ''"
  else if Csv.any_char (λ c, bool_decide (c = "000"%char)) filename then
    Some "embedded null byte"
  else opens filename.

(** [save_to_csv(phone_numbers, filename)] on the files of the world:
    [Some] of the text of the exception when the file cannot be opened,
    the files then untouched; [None] when the file has been written.
    Failures of the writes to an open file are outside the model. *)
Definition save (opens : string → option string)
    (phone_numbers : list string) (filename : string)
    : IO (option string) :=
  λ w,
    match open_error opens filename with
    | Some text => Done (Some text) w
    | None =>
        Done None
          {| stdin := stdin w; stdout := stdout w;
             files := save_to_csv phone_numbers filename (files w) |}
    end.

(** A generation loop that needs more iterations than the bound. *)
Definition unfinished {A} : IO A := λ _, Unfinished.

(** [main], for the namespace the argument parser returns, the random
    source, the bound on the iterations of the generation loop and what
    the operating system answers to the opening of a file.  The handler
    of its [try] takes the [ValueError] of the generation and the
    exception of an open that fails: each is printed after [Error: ] and
    the program exits with status 1.  Nothing else raises in the [try]
    here: the rows written are strings of code points below 256, which the
    UTF-8 file takes, and standard output shows every character, so that
    the prints return, those of the interactive questions as well. *)
Definition main (fuel : nat) (rng : RandomSource)
    (opens : string → option string) (argv : CommandLine) : IO unit :=
  args ← parse_args argv;
  let total_length := total args in
  let country_code := country args in
  let local_code := or_else (local args) "" in
  let count := count args in
  let filename := out args in
  let include_plus := negb (no_plus args) in
  let unique := negb (no_unique args) in
  match
    generate_phone_numbers fuel rng total_length country_code local_code
      count include_plus unique
  with
  | Returned phone_numbers =>
      failure ← save opens phone_numbers filename;
      match failure with
      | Some text => print (SaveError text) ≫= λ _, sys_exit 1
      | None => print (Success (Z.of_nat (length phone_numbers)) filename)
      end
  | Raised e => print (Error e) ≫= λ _, sys_exit 1
  | OutOfFuel => unfinished
  end.

(** The first occurrences of the strings of a list that are not in
    [seen], in their order. *)
Fixpoint first_occurrences (seen : gset string) (l : list string)
    : list string :=
  match l with
  | [] => []
  | x :: l' =>
      if bool_decide (x ∈ seen) then first_occurrences seen l'
      else x :: first_occurrences (seen ∪ {[ x ]}) l'
  end.

(** An outcome with the separator put in front of every returned
    string. *)
Definition with_separator (o : outcome) : outcome :=
  match o with
  | Returned results => Returned (String "+" <$> results)
  | _ => o
  end.

(** A line that [prompt_int] does not take: it is no integer, and it is
    not the empty answer that stands for a default. *)
Definition skipped (default : option Z) (line : string) : Prop :=
  Py.int (Str.strip line) = None ∧ (Str.strip line = "" → default = None).

(** A line that [prompt_int] takes, with the value it returns for it. *)
Definition answers (default : option Z) (line : string) (val : Z) : Prop :=
  (Str.strip line = "" ∧ default = Some val)
  ∨ ((Str.strip line = "" → default = None)
     ∧ Py.int (Str.strip line) = Some val).

(** What [prompt_int] writes for the lines it skips: the prompt and the
    complaint, once per line. *)
Definition reprompts (prompt_text : string) (lines : list string)
    : list Printed :=
  lines ≫= λ _, [Prompt prompt_text; PleaseEnterValidInteger].


(** A command line that makes [parse_args] ask the questions. *)
Definition asks (args : CommandLine) : Prop :=
  arg_interactive args = true ∨ arg_total args = None
  ∨ arg_country args = None.

(** ** Facts about strings *)

Lemma append_nil (b : string) : "" +:+ b = b.
Proof. reflexivity. Qed.

Lemma append_cons (x : ascii) (a b : string) :
  String x a +:+ b = String x (a +:+ b).
Proof. reflexivity. Qed.

Lemma append_length (a b : string) :
  String.length (a +:+ b) = (String.length a + String.length b)%nat.
Proof.
  induction a as [|c a IH]; [done |].
  rewrite append_cons. simpl. by rewrite IH.
Qed.

Lemma append_assoc (a b c : string) : (a +:+ b) +:+ c = a +:+ (b +:+ c).
Proof.
  induction a as [|x a IH]; [done |].
  rewrite !append_cons. by f_equal.
Qed.

Lemma prefix_append (a b : string) : String.prefix a (a +:+ b) = true.
Proof.
  induction a as [|x a IH]; [by destruct b |].
  rewrite append_cons. simpl. destruct (ascii_dec x x); [done | congruence].
Qed.

Lemma all_chars_append p (a b : string) :
  Str.all_chars p (a +:+ b) = Str.all_chars p a && Str.all_chars p b.
Proof.
  induction a as [|x a IH]; [done |].
  rewrite append_cons. simpl. by rewrite IH, andb_assoc.
Qed.

Lemma all_chars_weaken (p q : ascii → bool) (s : string) :
  (∀ c, p c = true → q c = true) →
  Str.all_chars p s = true → Str.all_chars q s = true.
Proof.
  intros Hpq. induction s as [|c s IH]; simpl; [done |].
  intros [Hc Hs]%andb_true_iff. rewrite (Hpq _ Hc). by apply IH.
Qed.

Lemma isdigit_all_chars (s : string) :
  Str.isdigit s = true → Str.all_chars Str.char_isdigit s = true.
Proof. by destruct s. Qed.

Lemma all_chars_isdigit (s : string) :
  s ≠ "" → Str.all_chars Str.char_isdigit s = true → Str.isdigit s = true.
Proof. by destruct s. Qed.

Lemma is_decimal_isdigit (c : ascii) :
  is_decimal c = true → Str.char_isdigit c = true.
Proof. unfold is_decimal, Str.char_isdigit. cbv zeta. by intros ->. Qed.

(** A digit is neither white space nor the separator. *)
Lemma char_isdigit_not_space_plus (c : ascii) :
  Str.char_isdigit c = true →
  Str.char_isspace c = false ∧ Str.is_plus c = false.
Proof.
  destruct c as [[] [] [] [] [] [] [] []]; vm_compute; intros H;
    (discriminate H || (split; reflexivity)).
Qed.

(** ** Facts about the random body *)

Lemma choice_decimal (rng : RandomSource) (pos : nat) :
  is_decimal (choice rng pos "0123456789") = true.
Proof.
  unfold choice. change (String.length "0123456789") with 10%nat.
  pose proof (Nat.mod_upper_bound (rng pos) 10 ltac:(lia)) as Hlt.
  set (i := (rng pos mod 10)%nat) in *. clearbody i.
  do 10 (destruct i as [|i]; [reflexivity |]). lia.
Qed.

Lemma number_body_length (rng : RandomSource) (pos n : nat) :
  String.length (number_body rng pos n) = n.
Proof. revert pos. induction n as [|n IH]; intros pos; simpl; [done | by rewrite IH]. Qed.

Lemma number_body_decimal (rng : RandomSource) (pos n : nat) :
  Str.all_chars is_decimal (number_body rng pos n) = true.
Proof.
  revert pos. induction n as [|n IH]; intros pos; simpl; [done |].
  by rewrite choice_decimal, IH.
Qed.

(** ** Facts about the loop *)

Section LoopFacts.

Context (rng : RandomSource) (country_digits local_digits : string).
Context (remaining_length limit : Z) (include_plus unique : bool).

Abbreviation loop :=
  (while_loop rng country_digits local_digits remaining_length limit
     include_plus unique).
Abbreviation full := (full_number_at rng country_digits local_digits remaining_length).
Abbreviation fmt := (formatted include_plus).
Abbreviation step := (Z.to_nat remaining_length).

Lemma while_loop_exit fuel results seen pos :
  ¬ Z.of_nat (length results) < limit →
  loop fuel results seen pos = Returned results.
Proof.
  intros Hge. apply Z.ltb_nlt in Hge.
  destruct fuel; simpl; by rewrite Hge.
Qed.

Lemma while_loop_out_of_fuel results seen pos :
  Z.of_nat (length results) < limit →
  loop 0 results seen pos = OutOfFuel.
Proof. intros Hlt. apply Z.ltb_lt in Hlt. simpl. by rewrite Hlt. Qed.

(** An iteration that finds its candidate in [seen]: [continue]. *)
Lemma while_loop_retry fuel results seen pos :
  Z.of_nat (length results) < limit →
  unique = true → full pos ∈ seen →
  loop (S fuel) results seen pos = loop fuel results seen (pos + step)%nat.
Proof.
  intros Hlt -> Hin. apply Z.ltb_lt in Hlt. simpl. rewrite Hlt.
  by rewrite bool_decide_eq_true_2.
Qed.

(** An iteration that keeps its candidate. *)
Lemma while_loop_keep fuel results seen pos :
  Z.of_nat (length results) < limit →
  (unique = true → full pos ∉ seen) →
  loop (S fuel) results seen pos =
  loop fuel (results ++ [fmt (full pos)])
    (if unique then seen ∪ {[ full pos ]} else seen) (pos + step)%nat.
Proof.
  intros Hlt Hnot. apply Z.ltb_lt in Hlt. simpl. rewrite Hlt.
  destruct unique; [| done].
  by rewrite bool_decide_eq_false_2 by auto.
Qed.

(** The loop raises nothing. *)
Lemma while_loop_not_raised fuel results seen pos e :
  loop fuel results seen pos ≠ Raised e.
Proof.
  revert results seen pos. induction fuel as [|fuel IH]; intros results seen pos.
  - simpl. by destruct (_ <? _).
  - simpl. destruct (_ <? _); [| done].
    destruct (_ && _); apply IH.
Qed.

(** Invariant rule: a property of the loop state that every iteration
    preserves holds of the state the loop returns from, where the loop
    condition is false. *)
Lemma while_loop_invariant (I : list string → gset string → Prop) :
  (∀ results seen pos,
      I results seen → Z.of_nat (length results) < limit →
      (unique = true → full pos ∉ seen) →
      I (results ++ [fmt (full pos)])
        (if unique then seen ∪ {[ full pos ]} else seen)) →
  ∀ fuel results seen pos out,
    I results seen →
    loop fuel results seen pos = Returned out →
    (∃ seen', I out seen') ∧ ¬ Z.of_nat (length out) < limit.
Proof.
  intros Hstep. induction fuel as [|fuel IH]; intros results seen pos out HI.
  - simpl. destruct (Z.ltb_spec (Z.of_nat (length results)) limit); [done |].
    intros [= <-]. split; [eauto | lia].
  - destruct (Z.ltb_spec (Z.of_nat (length results)) limit) as [Hlt | Hge].
    + destruct (decide (unique = true ∧ full pos ∈ seen)) as [[Hu Hin] | Hno].
      * rewrite while_loop_retry by done. by apply IH.
      * rewrite while_loop_keep by tauto. apply IH, Hstep; tauto.
    + rewrite while_loop_exit by lia. intros [= <-]. split; [eauto | lia].
Qed.

(** More fuel does not change a returned result. *)
Lemma while_loop_fuel_mono fuel fuel' results seen pos out :
  (fuel ≤ fuel')%nat →
  loop fuel results seen pos = Returned out →
  loop fuel' results seen pos = Returned out.
Proof.
  revert fuel' results seen pos.
  induction fuel as [|fuel IH]; intros fuel' results seen pos Hle.
  - simpl. destruct (Z.ltb_spec (Z.of_nat (length results)) limit); [done |].
    intros [= <-]. apply while_loop_exit. lia.
  - destruct fuel' as [|fuel']; [lia |].
    simpl. destruct (_ <? _); [| done].
    destruct (_ && _); apply IH; lia.
Qed.

(** The returned list has [limit] elements when the loop starts with at
    most [limit]. *)
Lemma while_loop_length fuel results seen pos out :
  Z.of_nat (length results) ≤ limit →
  loop fuel results seen pos = Returned out →
  Z.of_nat (length out) = limit.
Proof.
  intros Hle Hrun.
  assert (Hstep : ∀ (results : list string) (seen : gset string) pos,
             Z.of_nat (length results) ≤ limit →
             Z.of_nat (length results) < limit →
             (unique = true → full pos ∉ seen) →
             Z.of_nat (length (results ++ [fmt (full pos)])) ≤ limit).
  { intros results' seen' pos' _ Hlt _. rewrite length_app. simpl. lia. }
  destruct (while_loop_invariant (λ results _, Z.of_nat (length results) ≤ limit)
              Hstep _ _ _ _ _ Hle Hrun) as [[_ Hout] Hnlt].
  lia.
Qed.

(** Every returned string satisfies what the initial ones and every
    formatted candidate satisfy. *)
Lemma while_loop_Forall (P : string → Prop) fuel results seen pos out :
  (∀ pos, P (fmt (full pos))) →
  Forall P results →
  loop fuel results seen pos = Returned out →
  Forall P out.
Proof.
  intros HP Hres Hrun.
  assert (Hstep : ∀ (results : list string) (seen : gset string) pos,
             Forall P results →
             Z.of_nat (length results) < limit →
             (unique = true → full pos ∉ seen) →
             Forall P (results ++ [fmt (full pos)])).
  { intros results' seen' pos' HF _ _. apply Forall_app; split; [done |].
    by constructor. }
  by destruct (while_loop_invariant (λ results _, Forall P results)
                 Hstep _ _ _ _ _ Hres Hrun) as [[_ Hout] _].
Qed.

(** Under [unique] the results are the formatted versions of pairwise
    distinct full numbers, all of them recorded in [seen]. *)
Lemma while_loop_NoDup fuel results seen pos out fulls :
  unique = true →
  results = fmt <$> fulls → NoDup fulls → (∀ x, x ∈ fulls → x ∈ seen) →
  loop fuel results seen pos = Returned out →
  ∃ fulls', out = fmt <$> fulls' ∧ NoDup fulls'.
Proof.
  intros Hu Hres Hnd Hsub Hrun.
  set (I := λ (results : list string) (seen : gset string),
         ∃ fulls, results = fmt <$> fulls ∧ NoDup fulls
                  ∧ ∀ x, x ∈ fulls → x ∈ seen).
  assert (Hstep : ∀ (results : list string) (seen : gset string) pos,
             I results seen →
             Z.of_nat (length results) < limit →
             (unique = true → full pos ∉ seen) →
             I (results ++ [fmt (full pos)])
               (if unique then seen ∪ {[ full pos ]} else seen)).
  { intros results' seen' pos' (fs & -> & Hnd' & Hsub') _ Hfresh.
    exists (fs ++ [full pos']). rewrite Hu. split_and!.
    - by rewrite fmap_app.
    - apply NoDup_app. split_and!; [done | | apply NoDup_singleton].
      intros x Hx ->%list_elem_of_singleton. by eapply Hfresh; eauto.
    - intros x [Hx | ->%list_elem_of_singleton]%elem_of_app; set_solver. }
  assert (HI : I results seen) by (exists fulls; done).
  destruct (while_loop_invariant I Hstep _ _ _ _ _ HI Hrun)
    as [[_ (fulls' & ? & ? & _)] _].
  by exists fulls'.
Qed.

(** Termination without [unique]: one iteration per missing result. *)
Lemma while_loop_returns_dups fuel results seen pos :
  unique = false →
  limit ≤ Z.of_nat (length results + fuel) →
  ∃ out, loop fuel results seen pos = Returned out.
Proof.
  intros Hu. revert results seen pos.
  induction fuel as [|fuel IH]; intros results seen pos Hle.
  - exists results. apply while_loop_exit. lia.
  - destruct (Z.ltb_spec (Z.of_nat (length results)) limit) as [Hlt | Hge].
    + rewrite while_loop_keep by (done || congruence).
      apply IH. rewrite length_app. simpl. lia.
    + exists results. apply while_loop_exit. lia.
Qed.

(** Termination under [unique]: the loop returns once the candidates of
    its iterations, with the numbers already seen, make up [limit]
    distinct numbers. *)
Lemma while_loop_returns_unique fuel results seen pos :
  unique = true →
  length results = size seen →
  limit ≤ Z.of_nat
            (size (seen ∪ list_to_set
                     (candidates rng country_digits local_digits
                        remaining_length pos fuel))) →
  ∃ out, loop fuel results seen pos = Returned out.
Proof.
  intros Hu. revert results seen pos.
  induction fuel as [|fuel IH]; intros results seen pos Hsize Hle.
  - exists results. apply while_loop_exit. simpl in Hle.
    rewrite (right_id_L ∅ (∪)) in Hle. lia.
  - destruct (Z.ltb_spec (Z.of_nat (length results)) limit) as [Hlt | Hge];
      [| exists results; apply while_loop_exit; lia].
    simpl in Hle. destruct (decide (full pos ∈ seen)) as [Hin | Hnot].
    + rewrite while_loop_retry by done. apply IH; [done |].
      assert (seen ∪ {[ full pos ]} = seen) as Hsame.
      { rewrite (comm_L (∪)). by apply subseteq_union_1_L, singleton_subseteq_l. }
      by rewrite (assoc_L (∪)), Hsame in Hle.
    + rewrite while_loop_keep by done.
      assert ((if unique then seen ∪ {[ full pos ]} else seen)
              = seen ∪ {[ full pos ]}) as -> by (by rewrite Hu).
      apply IH.
      * rewrite length_app, size_union, size_singleton by set_solver.
        simpl. lia.
      * by rewrite <- (assoc_L (∪)).
Qed.

End LoopFacts.

(** ** Facts about validation *)

Lemma generate_valid fuel rng total_length country_code local_code limit
    include_plus unique :
  valid_configuration total_length country_code local_code limit unique →
  generate_phone_numbers fuel rng total_length country_code local_code limit
    include_plus unique
  = while_loop rng (country_digits_of country_code)
      (local_digits_of local_code)
      (remaining_length_of total_length country_code local_code) limit
      include_plus unique fuel [] ∅ 0.
Proof.
  intros ((Htotal & Hcountry & Hlocal & Hrem) & Hcap).
  unfold generate_phone_numbers.
  fold (country_digits_of country_code) (local_digits_of local_code).
  fold (remaining_length_of total_length country_code local_code).
  destruct (Z.leb_spec total_length 0); [lia |].
  rewrite Hcountry. simpl.
  assert (Str.truthy (local_digits_of local_code)
          && negb (Str.isdigit (local_digits_of local_code)) = false) as ->.
  { destruct Hlocal as [-> | ->]; [done | by rewrite andb_false_r]. }
  destruct (Z.leb_spec
              (remaining_length_of total_length country_code local_code) 0);
    [lia |].
  destruct unique; [| done].
  destruct (Z.ltb_spec
              (10 ^ remaining_length_of total_length country_code local_code)
              limit); [| done].
  specialize (Hcap eq_refl). lia.
Qed.

(** A call that returns has passed every check and run the loop. *)
Lemma generate_Returned_inv fuel rng total_length country_code local_code
    limit include_plus unique results :
  generate_phone_numbers fuel rng total_length country_code local_code limit
    include_plus unique = Returned results →
  valid_configuration total_length country_code local_code limit unique
  ∧ while_loop rng (country_digits_of country_code)
      (local_digits_of local_code)
      (remaining_length_of total_length country_code local_code) limit
      include_plus unique fuel [] ∅ 0 = Returned results.
Proof.
  unfold generate_phone_numbers, valid_configuration, valid_codes.
  fold (country_digits_of country_code) (local_digits_of local_code).
  fold (remaining_length_of total_length country_code local_code).
  destruct (Z.leb_spec total_length 0); [done |].
  destruct (Str.isdigit (country_digits_of country_code)) eqn:Hc; [| done].
  simpl.
  destruct (Str.truthy (local_digits_of local_code)
            && negb (Str.isdigit (local_digits_of local_code))) eqn:Hl;
    [done |].
  destruct (Z.leb_spec
              (remaining_length_of total_length country_code local_code) 0);
    [done |].
  destruct (unique && _) eqn:Hu; [done |].
  intros Hrun. split_and!; try done.
  - destruct (local_digits_of local_code); [by left | right].
    simpl in Hl. by apply negb_false_iff in Hl.
  - intros ->. simpl in Hu. by apply Z.ltb_ge in Hu.
Qed.

(** The first character of a digit string is not the separator. *)
Lemma strip_separator_not_plus (c : ascii) (s : string) :
  Str.is_plus c = false → strip_separator (String c s) = String c s.
Proof.
  destruct c as [[] [] [] [] [] [] [] []]; try reflexivity.
  vm_compute. discriminate.
Qed.

Lemma startswith_plus_cons (c : ascii) (s : string) :
  Str.startswith "+" (String c s) = Str.is_plus c.
Proof.
  unfold Str.startswith, Str.is_plus.
  change (String.prefix "+" (String c s))
    with (if ascii_dec "+" c then String.prefix "" s else false).
  destruct (ascii_dec "+" c) as [<- | Hne].
  - by destruct s.
  - symmetry. apply bool_decide_eq_false_2. congruence.
Qed.

Lemma strip_separator_formatted include_plus (digits rest : string) :
  Str.isdigit digits = true →
  strip_separator (formatted include_plus (digits +:+ rest)) = digits +:+ rest.
Proof.
  intros Hd. destruct include_plus; [done |].
  destruct digits as [|c digits]; [done |].
  simpl in Hd. apply andb_true_iff in Hd as [Hc _].
  rewrite append_cons. apply strip_separator_not_plus.
  by apply char_isdigit_not_space_plus.
Qed.

Lemma startswith_plus_formatted include_plus (digits rest : string) :
  Str.isdigit digits = true →
  Str.startswith "+" (formatted include_plus (digits +:+ rest)) = include_plus.
Proof.
  intros Hd. destruct include_plus; [apply startswith_plus_cons |].
  destruct digits as [|c digits]; [done |].
  simpl in Hd. apply andb_true_iff in Hd as [Hc _].
  unfold formatted. rewrite append_cons, startswith_plus_cons.
  by apply char_isdigit_not_space_plus.
Qed.

(** ** Facts about stripping *)

Lemma lstrip_all_chars (q p : ascii → bool) (s : string) :
  Str.all_chars q s = true → Str.all_chars q (Str.lstrip p s) = true.
Proof.
  induction s as [|c s IH]; simpl; [done |].
  intros [Hc Hs]%andb_true_iff. destruct (p c); [by apply IH |].
  simpl. by rewrite Hc.
Qed.

Lemma rstrip_all_chars (q p : ascii → bool) (s : string) :
  Str.all_chars q s = true → Str.all_chars q (Str.rstrip p s) = true.
Proof.
  induction s as [|c s IH]; simpl; [done |].
  intros [Hc Hs]%andb_true_iff. specialize (IH Hs).
  destruct (Str.rstrip p s) eqn:Hr.
  - destruct (p c); simpl; [done | by rewrite Hc].
  - change (q c && Str.all_chars q (String a s0) = true). by rewrite Hc.
Qed.

Lemma lstrip_keep (p : ascii → bool) (c : ascii) (s : string) :
  p c = false → Str.lstrip p (String c s) = String c s.
Proof. intros Hc. simpl. by rewrite Hc. Qed.

Lemma rstrip_keep (p : ascii → bool) (s : string) :
  Str.all_chars (λ c, negb (p c)) s = true → Str.rstrip p s = s.
Proof.
  induction s as [|c s IH]; simpl; [done |].
  intros [Hc Hs]%andb_true_iff. rewrite (IH Hs).
  apply negb_true_iff in Hc. rewrite Hc. by destruct s.
Qed.

(** A string of white space and separators has no digit. *)
Lemma not_isdigit_space_plus (s : string) :
  Str.all_chars (λ c, Str.char_isspace c || Str.is_plus c) s = true →
  Str.isdigit s = false.
Proof.
  destruct s as [|c s]; [done |]. simpl.
  intros [Hc _]%andb_true_iff.
  destruct (Str.char_isdigit c) eqn:Hd; [| done].
  apply char_isdigit_not_space_plus in Hd as [Hsp Hpl].
  by rewrite Hsp, Hpl in Hc.
Qed.

(** ** Facts about whole calls *)

Lemma distinct_le_length (l : list string) : (distinct l ≤ length l)%nat.
Proof.
  unfold distinct. induction l as [|x l IH].
  - rewrite list_to_set_nil, size_empty. done.
  - rewrite list_to_set_cons, size_union_alt, size_singleton.
    assert (size (list_to_set l ∖ {[ x ]} : gset string)
            ≤ size (list_to_set l : gset string))%nat
      by (by apply subseteq_size, subseteq_difference_l).
    simpl. lia.
Qed.

Lemma candidates_length rng country_digits local_digits remaining_length pos n :
  length (candidates rng country_digits local_digits remaining_length pos n) = n.
Proof. revert pos. induction n as [|n IH]; intros pos; simpl; [done | by rewrite IH]. Qed.

Lemma generate_not_raised fuel rng total_length country_code local_code limit
    include_plus unique e :
  valid_configuration total_length country_code local_code limit unique →
  generate_phone_numbers fuel rng total_length country_code local_code limit
    include_plus unique ≠ Raised e.
Proof.
  intros Hvalid. rewrite generate_valid by done. apply while_loop_not_raised.
Qed.

Lemma generate_length fuel rng total_length country_code local_code limit
    include_plus unique results :
  0 ≤ limit →
  generate_phone_numbers fuel rng total_length country_code local_code limit
    include_plus unique = Returned results →
  Z.of_nat (length results) = limit.
Proof.
  intros Hlimit [_ Hrun]%generate_Returned_inv.
  by eapply while_loop_length in Hrun.
Qed.

(** A negative count is below every length: the loop is not entered. *)
Lemma generate_negative_count fuel rng total_length country_code local_code
    limit include_plus unique :
  valid_codes total_length country_code local_code →
  limit < 0 →
  generate_phone_numbers fuel rng total_length country_code local_code limit
    include_plus unique = Returned [].
Proof.
  intros Hcodes Hneg. rewrite generate_valid.
  - apply while_loop_exit. simpl. lia.
  - split; [done |]. intros _.
    pose proof (Z.pow_nonneg 10
                  (remaining_length_of total_length country_code local_code)
                  ltac:(lia)).
    lia.
Qed.

(** The length of a returned list, whatever the sign of the count. *)
Lemma generate_length_max fuel rng total_length country_code local_code
    limit include_plus unique results :
  generate_phone_numbers fuel rng total_length country_code local_code limit
    include_plus unique = Returned results →
  Z.of_nat (length results) = Z.max 0 limit.
Proof.
  intros Hrun. destruct (Z.le_gt_cases 0 limit) as [Hle | Hneg].
  - rewrite (generate_length _ _ _ _ _ _ _ _ _ Hle Hrun). lia.
  - pose proof Hrun as [[Hcodes _] _]%generate_Returned_inv.
    rewrite generate_negative_count in Hrun by done.
    injection Hrun as <-. simpl. lia.
Qed.

(** A call on a valid configuration returns within [n] iterations when the
    candidates of its first [n] iterations hold [limit] distinct numbers. *)
Lemma generate_returns n fuel rng total_length country_code local_code limit
    include_plus unique :
  valid_configuration total_length country_code local_code limit unique →
  limit ≤ Z.of_nat
            (distinct
               (candidates rng (country_digits_of country_code)
                  (local_digits_of local_code)
                  (remaining_length_of total_length country_code local_code)
                  0 n)) →
  (n ≤ fuel)%nat →
  ∃ results,
    generate_phone_numbers fuel rng total_length country_code local_code limit
      include_plus unique = Returned results.
Proof.
  intros Hvalid Hdistinct Hfuel. rewrite generate_valid by done.
  set (cands := candidates _ _ _ _ _ _) in Hdistinct.
  assert (∃ results,
            while_loop rng (country_digits_of country_code)
              (local_digits_of local_code)
              (remaining_length_of total_length country_code local_code) limit
              include_plus unique n [] ∅ 0 = Returned results)
    as [results Hrun].
  { destruct unique eqn:Hu.
    - apply while_loop_returns_unique; [done | by rewrite size_empty |].
      by rewrite (left_id_L ∅ (∪)).
    - apply while_loop_returns_dups; [done |].
      pose proof (distinct_le_length cands) as Hle.
      unfold cands in Hle at 2. rewrite candidates_length in Hle.
      simpl. lia. }
  exists results. by eapply while_loop_fuel_mono.
Qed.

(** Without [unique] a call on a valid configuration returns within
    [limit] iterations whatever the random source draws. *)
Lemma generate_returns_dups fuel rng total_length country_code local_code
    limit include_plus :
  valid_configuration total_length country_code local_code limit false →
  (Z.to_nat limit ≤ fuel)%nat →
  ∃ results,
    generate_phone_numbers fuel rng total_length country_code local_code limit
      include_plus false = Returned results.
Proof.
  intros Hvalid Hfuel. rewrite generate_valid by done.
  apply while_loop_returns_dups; [done |]. simpl. lia.
Qed.

(** What every formatted candidate of a valid configuration looks like. *)
Lemma candidate_shape rng total_length country_code local_code include_plus pos :
  valid_codes total_length country_code local_code →
  let country_digits := country_digits_of country_code in
  let local_digits := local_digits_of local_code in
  let remaining_length :=
    remaining_length_of total_length country_code local_code in
  let digits :=
    strip_separator
      (formatted include_plus
         (full_number_at rng country_digits local_digits remaining_length pos)) in
  ∃ body,
    digits = country_digits +:+ local_digits +:+ body
    ∧ Str.all_chars is_decimal body = true
    ∧ Str.len body = remaining_length
    ∧ Str.isdigit digits = true
    ∧ Str.len digits = total_length.
Proof.
  intros (Htotal & Hcountry & Hlocal & Hrem). cbv zeta.
  unfold full_number_at. rewrite strip_separator_formatted by done.
  set (body := number_body _ _ _).
  assert (Hlen : Str.len body
                 = remaining_length_of total_length country_code local_code).
  { unfold Str.len, body. rewrite number_body_length. lia. }
  assert (Hdec : Str.all_chars is_decimal body = true)
    by apply number_body_decimal.
  exists body. split_and!; try done.
  - apply all_chars_isdigit.
    + destruct (country_digits_of country_code); [done |].
      by rewrite append_cons.
    + rewrite !all_chars_append, (isdigit_all_chars _ Hcountry).
      rewrite (all_chars_weaken _ _ _ is_decimal_isdigit Hdec).
      destruct Hlocal as [-> | Hl]; [done |].
      by rewrite (isdigit_all_chars _ Hl).
  - unfold Str.len in *. rewrite !append_length.
    unfold remaining_length_of, Str.len in Hlen. lia.
Qed.

Global Instance formatted_inj include_plus : Inj (=) (=) (formatted include_plus).
Proof. intros x y. destruct include_plus; simpl; [by intros [=] | done]. Qed.

(** ** The country code *)

(** A digit string, with any number of separators in front, has the digit
    string as its country digits. *)
Lemma country_digits_of_pluses (n : nat) (digits : string) :
  Str.isdigit digits = true →
  country_digits_of (pluses n +:+ digits) = digits.
Proof.
  intros Hd. unfold country_digits_of, Str.strip.
  destruct digits as [|c digits]; [done |].
  pose proof (isdigit_all_chars _ Hd) as Hall.
  assert (Hc : Str.char_isspace c = false ∧ Str.is_plus c = false).
  { simpl in Hall. apply andb_true_iff in Hall as [Hc _].
    by apply char_isdigit_not_space_plus. }
  assert (Hnospace : Str.all_chars (λ c, negb (Str.char_isspace c))
                       (pluses n +:+ String c digits) = true).
  { rewrite all_chars_append. apply andb_true_iff. split.
    - clear. induction n as [|n IH]; [done | exact IH].
    - eapply all_chars_weaken; [| exact Hall].
      intros a Ha. by destruct (char_isdigit_not_space_plus a Ha) as [-> _]. }
  assert (Hl : Str.lstrip Str.char_isspace (pluses n +:+ String c digits)
               = pluses n +:+ String c digits).
  { destruct n as [|n]; [by apply lstrip_keep, Hc | done]. }
  rewrite Hl, (rstrip_keep _ _ Hnospace). clear Hl Hnospace.
  induction n as [|n IH]; [by apply lstrip_keep, Hc | exact IH].
Qed.

(** The country-code error is not raised for country digits that are a
    digit string. *)
Lemma generate_country_error fuel rng total_length country_code local_code
    limit include_plus unique :
  Str.isdigit (country_digits_of country_code) = true →
  generate_phone_numbers fuel rng total_length country_code local_code limit
    include_plus unique ≠ Raised CountryCodeNotDigits.
Proof.
  intros Hd. unfold generate_phone_numbers.
  fold (country_digits_of country_code). rewrite Hd. simpl.
  destruct (_ <=? _); [done |]. destruct (_ && _); [done |].
  destruct (_ <=? _); [done |]. destruct (_ && _); [done |].
  apply while_loop_not_raised.
Qed.

(** ** Termination of the retry loop *)

(** With the source that always draws 0 every candidate is the same
    number: after the first one is kept, each iteration is a retry. *)
Lemma while_loop_zeros_stuck fuel pos :
  while_loop zeros "1" "" 1 2 true true fuel ["+10"] (∅ ∪ {[ "10" ]}) pos
  = OutOfFuel.
Proof.
  revert pos. induction fuel as [|fuel IH]; intros pos.
  - by apply while_loop_out_of_fuel.
  - rewrite while_loop_retry; [apply IH | done | done |].
    apply elem_of_union_r, elem_of_singleton. reflexivity.
Qed.

(** *** A source that draws distinct bodies *)

Lemma choice_value (rng : RandomSource) (pos : nat) :
  (nat_of_ascii (choice rng pos "0123456789") - 48 = rng pos mod 10)%nat.
Proof.
  unfold choice. change (String.length "0123456789") with 10%nat.
  pose proof (Nat.mod_upper_bound (rng pos) 10 ltac:(lia)) as Hlt.
  set (i := (rng pos mod 10)%nat) in *. clearbody i.
  do 10 (destruct i as [|i]; [reflexivity |]). lia.
Qed.

Lemma enumerating_at (r k i : nat) :
  (i < r)%nat →
  (enumerating r (k * r + i) mod 10 = k / 10 ^ (r - 1 - i) mod 10)%nat.
Proof.
  intros Hi. unfold enumerating.
  rewrite Nat.div_add_l, (Nat.div_small i r), Nat.add_0_r by lia.
  rewrite (Nat.add_comm (k * r) i), Nat.Div0.mod_add, (Nat.mod_small i r) by lia.
  apply Nat.Div0.mod_mod.
Qed.

Lemma number_body_enumerating_value (r k : nat) (m i acc : nat) :
  (i + m = r)%nat →
  (digits_value acc (number_body (enumerating r) (k * r + i) m)
   = acc * 10 ^ m + k mod 10 ^ m)%nat.
Proof.
  revert i acc. induction m as [|m IH]; intros i acc Him.
  - cbn [number_body digits_value]. rewrite Nat.pow_0_r, Nat.mod_1_r. lia.
  - cbn [number_body digits_value].
    rewrite choice_value, enumerating_at by lia.
    replace (S (k * r + i)) with (k * r + S i)%nat by lia.
    rewrite IH by lia.
    replace (r - 1 - i)%nat with m by lia.
    rewrite Nat.pow_succ_r', (Nat.mul_comm 10 (10 ^ m)).
    rewrite (Nat.Div0.mod_mul_r k (10 ^ m) 10). lia.
Qed.

Lemma number_body_enumerating_inj (r k1 k2 : nat) :
  (k1 < 10 ^ r)%nat → (k2 < 10 ^ r)%nat →
  number_body (enumerating r) (k1 * r) r
  = number_body (enumerating r) (k2 * r) r →
  k1 = k2.
Proof.
  intros H1 H2 Heq. apply (f_equal (digits_value 0)) in Heq.
  pose proof (number_body_enumerating_value r k1 r 0 0 eq_refl) as E1.
  pose proof (number_body_enumerating_value r k2 r 0 0 eq_refl) as E2.
  rewrite Nat.add_0_r in E1, E2. rewrite E1, E2 in Heq.
  rewrite !Nat.mod_small in Heq by done. lia.
Qed.

Lemma candidates_fmap rng country_digits local_digits remaining_length pos n :
  candidates rng country_digits local_digits remaining_length pos n
  = (λ k, full_number_at rng country_digits local_digits remaining_length
            (pos + k * Z.to_nat remaining_length))
    <$> seq 0 n.
Proof.
  revert pos. induction n as [|n IH]; intros pos; [done |].
  cbn [candidates seq fmap list_fmap]. rewrite Nat.add_0_r. f_equal.
  rewrite IH, <- fmap_S_seq, <- list_fmap_compose.
  apply list_fmap_ext. intros _ k _. simpl. f_equal. lia.
Qed.

(** The first [n] candidates under [enumerating] are pairwise distinct as
    long as [n] does not exceed the number of bodies. *)
Lemma candidates_enumerating_distinct country_digits local_digits
    (remaining_length : Z) (n : nat) :
  Z.of_nat n ≤ 10 ^ remaining_length →
  0 < remaining_length →
  distinct
    (candidates (enumerating (Z.to_nat remaining_length)) country_digits
       local_digits remaining_length 0 n)
  = n.
Proof.
  intros Hn Hrem. unfold distinct.
  set (r := Z.to_nat remaining_length).
  assert (Hpow : (n ≤ 10 ^ r)%nat).
  { apply Nat2Z.inj_le. rewrite Nat2Z.inj_pow. unfold r.
    rewrite Z2Nat.id by lia. exact Hn. }
  rewrite size_list_to_set.
  - apply candidates_length.
  - rewrite candidates_fmap. apply NoDup_fmap_2_strong; [| apply NoDup_seq].
    intros k1 k2 Hk1%elem_of_seq Hk2%elem_of_seq Heq.
    unfold full_number_at in Heq. fold r in Heq.
    apply (inj (String.app _)), (inj (String.app _)) in Heq.
    apply (number_body_enumerating_inj r); [lia | lia | done].
Qed.

(** Every valid configuration has a random source under which the call
    returns within [limit] iterations: under [unique] the one that counts
    the bodies up, which the capacity check makes long enough. *)
Lemma generate_returns_for_some_source total_length country_code local_code
    limit include_plus unique :
  valid_configuration total_length country_code local_code limit unique →
  ∃ rng, ∀ fuel, (Z.to_nat limit ≤ fuel)%nat →
    ∃ results,
      generate_phone_numbers fuel rng total_length country_code local_code
        limit include_plus unique = Returned results.
Proof.
  intros Hvalid. destruct unique eqn:Hu.
  - destruct Hvalid as [Hcodes Hcap]. specialize (Hcap eq_refl).
    exists (enumerating
              (Z.to_nat
                 (remaining_length_of total_length country_code local_code))).
    intros fuel Hfuel.
    apply (generate_returns (Z.to_nat limit)); [by split | | done].
    rewrite candidates_enumerating_distinct; [lia | lia |].
    apply Hcodes.
  - exists zeros. intros fuel. by apply generate_returns_dups.
Qed.

(** ** The CSV reader on what the writer writes *)

Lemma parse_chars_snoc (line : string) (c : ascii) (r : Csv.Reader) :
  Csv.parse_chars (line +:+ String c "") r
  = Csv.parse_chars line r ≫= Csv.parse_process_char (Csv.Chr c).
Proof.
  revert r. induction line as [|a line IH]; intros r.
  - rewrite append_nil. simpl. by destruct (Csv.parse_process_char _ r).
  - rewrite append_cons. simpl.
    destruct (Csv.parse_process_char (Csv.Chr a) r) as [r' |]; [apply IH | done].
Qed.

Lemma read_records_cons (line : string) (lines : list string) (r : Csv.Reader) :
  Csv.read_records (line :: lines) r
  = Csv.parse_line line r ≫= λ r', yield_record r' (Csv.read_records lines).
Proof. reflexivity. Qed.

(** Reading line by line and reading the stream of characters agree. *)
Lemma read_records_stream (text cur : string) (r : Csv.Reader) :
  Csv.read_records (Csv.readlines_from cur text) r
  = Csv.parse_chars cur r
    ≫= read_stream (bool_decide (cur ≠ "")) text.
Proof.
  revert cur r. induction text as [|c rest IH]; intros cur r.
  - destruct cur as [|a cur]; [done |].
    cbn [Csv.readlines_from]. rewrite read_records_cons.
    unfold Csv.parse_line.
    destruct (Csv.parse_chars (String a cur) r) as [r' |]; [| done].
    by rewrite bool_decide_eq_true_2.
  - cbn [Csv.readlines_from read_stream].
    destruct (Csv.ends_line c rest).
    + rewrite read_records_cons. unfold Csv.parse_line.
      rewrite parse_chars_snoc.
      destruct (Csv.parse_chars cur r) as [r0 |]; [| done]. simpl.
      destruct (Csv.parse_process_char (Csv.Chr c) r0) as [r1 |]; [| done].
      simpl.
      destruct (Csv.parse_process_char Csv.EOL r1) as [r2 |]; [| done].
      simpl. unfold yield_record.
      destruct (bool_decide _); [f_equal |]; apply (IH "").
    + rewrite IH, parse_chars_snoc.
      destruct (Csv.parse_chars cur r) as [r0 |]; [| done]. simpl.
      destruct (Csv.parse_process_char (Csv.Chr c) r0) as [r1 |]; [| done].
      simpl. rewrite bool_decide_eq_true_2; [done |].
      by destruct cur.
Qed.

Lemma reader_stream (text : string) :
  Csv.reader text = read_stream false text Csv.parse_reset.
Proof. apply (read_records_stream text ""). Qed.

Lemma append_empty_r (a : string) : a +:+ "" = a.
Proof. induction a as [|c a IH]; [done |]. rewrite append_cons. by f_equal. Qed.

Lemma append_snoc (a : string) (c : ascii) (b : string) :
  (a +:+ String c "") +:+ b = a +:+ String c b.
Proof. by rewrite append_assoc. Qed.

Lemma special_false (c : ascii) :
  Csv.special c = false →
  Csv.is_char Csv.delimiter c = false ∧ Csv.is_char Csv.quotechar c = false
  ∧ Csv.is_char Csv.CR c = false ∧ Csv.is_char Csv.LF c = false.
Proof.
  unfold Csv.special, Csv.lineterminator. cbn [Csv.any_char].
  rewrite !orb_false_iff. tauto.
Qed.

Lemma ends_line_plain (c : ascii) (rest : string) :
  Csv.is_char Csv.CR c = false → Csv.is_char Csv.LF c = false →
  Csv.ends_line c rest = false.
Proof. unfold Csv.ends_line. by intros -> ->. Qed.

(** The transitions of the reader that reading a written file takes. *)
Section Transitions.

Context (b : string) (fs : list string).

Abbreviation reader_in s :=
  {| Csv.state := s; Csv.field := b; Csv.fields := fs |}.

Lemma process_start_plain c :
  Csv.special c = false →
  Csv.parse_process_char (Csv.Chr c) (reader_in Csv.START_RECORD)
  = Some {| Csv.state := Csv.IN_FIELD; Csv.field := b +:+ String c "";
            Csv.fields := fs |}.
Proof.
  intros (Hd & Hq & Hcr & Hlf)%special_false.
  unfold Csv.parse_process_char, Csv.start_field. simpl.
  by rewrite Hd, Hq, Hcr, Hlf.
Qed.

Lemma process_start_quote :
  Csv.parse_process_char (Csv.Chr Csv.quotechar) (reader_in Csv.START_RECORD)
  = Some (reader_in Csv.IN_QUOTED_FIELD).
Proof. reflexivity. Qed.

Lemma process_in_field_plain c :
  Csv.special c = false →
  Csv.parse_process_char (Csv.Chr c) (reader_in Csv.IN_FIELD)
  = Some {| Csv.state := Csv.IN_FIELD; Csv.field := b +:+ String c "";
            Csv.fields := fs |}.
Proof.
  intros (Hd & Hq & Hcr & Hlf)%special_false.
  unfold Csv.parse_process_char. simpl. by rewrite Hd, Hcr, Hlf.
Qed.

Lemma process_in_field_CR :
  Csv.parse_process_char (Csv.Chr Csv.CR) (reader_in Csv.IN_FIELD)
  = Some {| Csv.state := Csv.EAT_CRNL; Csv.field := "";
            Csv.fields := fs ++ [b] |}.
Proof. reflexivity. Qed.

Lemma process_eat_LF :
  Csv.parse_process_char (Csv.Chr Csv.LF) (reader_in Csv.EAT_CRNL)
  = Some (reader_in Csv.EAT_CRNL).
Proof. reflexivity. Qed.

Lemma process_eat_EOL :
  Csv.parse_process_char Csv.EOL (reader_in Csv.EAT_CRNL)
  = Some (reader_in Csv.START_RECORD).
Proof. reflexivity. Qed.

Lemma process_quoted_other c :
  Csv.is_char Csv.quotechar c = false →
  Csv.parse_process_char (Csv.Chr c) (reader_in Csv.IN_QUOTED_FIELD)
  = Some {| Csv.state := Csv.IN_QUOTED_FIELD; Csv.field := b +:+ String c "";
            Csv.fields := fs |}.
Proof. intros Hq. unfold Csv.parse_process_char. simpl. by rewrite Hq. Qed.

Lemma process_quoted_quote :
  Csv.parse_process_char (Csv.Chr Csv.quotechar) (reader_in Csv.IN_QUOTED_FIELD)
  = Some (reader_in Csv.QUOTE_IN_QUOTED_FIELD).
Proof. reflexivity. Qed.

Lemma process_quoted_EOL :
  Csv.parse_process_char Csv.EOL (reader_in Csv.IN_QUOTED_FIELD)
  = Some (reader_in Csv.IN_QUOTED_FIELD).
Proof. reflexivity. Qed.

Lemma process_quote_quote :
  Csv.parse_process_char (Csv.Chr Csv.quotechar)
    (reader_in Csv.QUOTE_IN_QUOTED_FIELD)
  = Some {| Csv.state := Csv.IN_QUOTED_FIELD;
            Csv.field := b +:+ String Csv.quotechar ""; Csv.fields := fs |}.
Proof. reflexivity. Qed.

Lemma process_quote_CR :
  Csv.parse_process_char (Csv.Chr Csv.CR) (reader_in Csv.QUOTE_IN_QUOTED_FIELD)
  = Some {| Csv.state := Csv.EAT_CRNL; Csv.field := "";
            Csv.fields := fs ++ [b] |}.
Proof. reflexivity. Qed.

End Transitions.

(** One character of the stream. *)
Lemma read_stream_step inside (c : ascii) (rest : string) (r r1 : Csv.Reader) :
  Csv.parse_process_char (Csv.Chr c) r = Some r1 →
  read_stream inside (String c rest) r
  = if Csv.ends_line c rest then
      Csv.parse_process_char Csv.EOL r1
      ≫= λ r2, yield_record r2 (read_stream false rest)
    else read_stream true rest r1.
Proof. intros Hc. cbn [read_stream]. by rewrite Hc. Qed.

Lemma ends_line_LF (rest : string) : Csv.ends_line Csv.LF rest = true.
Proof. reflexivity. Qed.

Lemma ends_line_CR_LF (rest : string) :
  Csv.ends_line Csv.CR (String Csv.LF rest) = false.
Proof. reflexivity. Qed.

Lemma ends_line_quote (rest : string) :
  Csv.ends_line Csv.quotechar rest = false.
Proof. reflexivity. Qed.

(** The end of a record, CR LF, read after the last field was saved. *)
Lemma read_stream_end_of_record inside (b : string) (fs : list string)
    (rest : string) :
  read_stream inside (String Csv.LF rest)
    {| Csv.state := Csv.EAT_CRNL; Csv.field := b; Csv.fields := fs |}
  = (fs ::.) <$> read_stream false rest Csv.parse_reset.
Proof.
  erewrite read_stream_step by apply process_eat_LF.
  by rewrite ends_line_LF, process_eat_EOL.
Qed.

(** An unquoted field and the end of its record, read in [IN_FIELD]. *)
Lemma read_stream_in_field (p : string) inside (b rest : string) :
  Csv.any_char Csv.special p = false →
  read_stream inside (p +:+ Csv.lineterminator +:+ rest)
    {| Csv.state := Csv.IN_FIELD; Csv.field := b; Csv.fields := [] |}
  = ([b +:+ p] ::.) <$> read_stream false rest Csv.parse_reset.
Proof.
  revert inside b. induction p as [|c p IH]; intros inside b Hp.
  - rewrite append_nil, append_empty_r.
    unfold Csv.lineterminator. rewrite !append_cons, append_nil.
    erewrite read_stream_step by apply process_in_field_CR.
    rewrite ends_line_CR_LF. apply read_stream_end_of_record.
  - simpl in Hp. apply orb_false_iff in Hp as [Hc Hp].
    rewrite append_cons.
    erewrite read_stream_step by by apply process_in_field_plain.
    destruct (special_false c Hc) as (_ & _ & Hcr & Hlf).
    by rewrite ends_line_plain, IH, append_snoc.
Qed.

(** The rest of a quoted field and the end of its record, read in
    [IN_QUOTED_FIELD]. *)
Lemma read_stream_in_quoted_field (p : string) inside (b rest : string) :
  read_stream inside
    (Csv.doubled p +:+ String Csv.quotechar "" +:+ Csv.lineterminator +:+ rest)
    {| Csv.state := Csv.IN_QUOTED_FIELD; Csv.field := b; Csv.fields := [] |}
  = ([b +:+ p] ::.) <$> read_stream false rest Csv.parse_reset.
Proof.
  revert inside b. induction p as [|c p IH]; intros inside b.
  - cbn [Csv.doubled]. rewrite append_nil, append_empty_r.
    unfold Csv.lineterminator. rewrite !append_cons, !append_nil.
    erewrite read_stream_step by apply process_quoted_quote.
    rewrite ends_line_quote.
    erewrite read_stream_step by apply process_quote_CR.
    rewrite ends_line_CR_LF. apply read_stream_end_of_record.
  - cbn [Csv.doubled].
    destruct (Csv.is_char Csv.quotechar c) eqn:Hq.
    + apply bool_decide_eq_true in Hq as ->.
      rewrite !append_cons.
      erewrite read_stream_step by apply process_quoted_quote.
      rewrite ends_line_quote.
      erewrite read_stream_step by apply process_quote_quote.
      by rewrite ends_line_quote, IH, append_snoc.
    + rewrite append_cons.
      erewrite read_stream_step by by apply process_quoted_other.
      destruct (Csv.ends_line c _).
      * rewrite process_quoted_EOL.
        change (read_stream false
                  (Csv.doubled p +:+ String Csv.quotechar ""
                   +:+ Csv.lineterminator +:+ rest)
                  {| Csv.state := Csv.IN_QUOTED_FIELD;
                     Csv.field := b +:+ String c ""; Csv.fields := [] |}
                = ([b +:+ String c p] ::.)
                  <$> read_stream false rest Csv.parse_reset).
        by rewrite IH, append_snoc.
      * by rewrite IH, append_snoc.
Qed.

(** The record the writer writes for a row of one field. *)
Lemma record_single (p : string) :
  Csv.record [p]
  = (if Csv.any_char Csv.special p then
       String Csv.quotechar (Csv.doubled p) +:+ String Csv.quotechar ""
     else match p with
          | EmptyString => String Csv.quotechar (String Csv.quotechar "")
          | _ => p
          end)
    +:+ Csv.lineterminator.
Proof.
  unfold Csv.record, Csv.join_append. simpl.
  destruct (Csv.any_char Csv.special p); [done |]. by destruct p.
Qed.

(** A written record of one field is read back as that field, and the
    reader starts afresh on what follows. *)
Lemma read_stream_record (p rest : string) :
  read_stream false (Csv.record [p] +:+ rest) Csv.parse_reset
  = ([p] ::.) <$> read_stream false rest Csv.parse_reset.
Proof.
  rewrite record_single.
  assert (Hquoted :
            read_stream false
              (((String Csv.quotechar (Csv.doubled p) +:+ String Csv.quotechar "")
                +:+ Csv.lineterminator) +:+ rest) Csv.parse_reset
            = ([p] ::.) <$> read_stream false rest Csv.parse_reset).
  { rewrite !append_assoc, append_cons.
    erewrite read_stream_step by apply process_start_quote.
    rewrite ends_line_quote. apply (read_stream_in_quoted_field p true ""). }
  destruct (Csv.any_char Csv.special p) eqn:Hp; [exact Hquoted |].
  destruct p as [|c p]; [exact Hquoted |].
  simpl in Hp. apply orb_false_iff in Hp as [Hc Hp].
  rewrite append_assoc, append_cons.
  erewrite read_stream_step by by apply process_start_plain.
  destruct (special_false c Hc) as (_ & _ & Hcr & Hlf).
  rewrite ends_line_plain by done.
  apply (read_stream_in_field p true (String c "") rest Hp).
Qed.

Lemma writerows_append (rows : list (list string)) (a b : string) :
  Csv.writerows rows (a +:+ b) = a +:+ Csv.writerows rows b.
Proof.
  revert b. induction rows as [|row rows IH]; intros b; [done |].
  cbn [Csv.writerows foldl]. unfold Csv.writerow.
  rewrite append_assoc. apply IH.
Qed.

Lemma writerows_cons (row : list string) (rows : list (list string)) :
  Csv.writerows (row :: rows) "" = Csv.record row +:+ Csv.writerows rows "".
Proof.
  cbn [Csv.writerows foldl]. unfold Csv.writerow. rewrite append_nil.
  rewrite <- (append_empty_r (Csv.record row)) at 1. apply writerows_append.
Qed.

Lemma writerows_foldr (rows : list (list string)) :
  Csv.writerows rows ""
  = foldr (λ row rest, Csv.record row +:+ rest) "" rows.
Proof.
  induction rows as [|row rows IH]; [done |].
  rewrite writerows_cons, IH. done.
Qed.

Lemma reader_written_rows (phone_numbers : list string) :
  Csv.reader (Csv.writerows ((λ p, [p]) <$> phone_numbers) "")
  = Some ((λ p, [p]) <$> phone_numbers).
Proof.
  rewrite reader_stream.
  induction phone_numbers as [|p phone_numbers IH]; [done |].
  rewrite fmap_cons, writerows_cons, read_stream_record, IH. done.
Qed.

Lemma mapM_sole_field (phone_numbers : list string) :
  mapM sole_field ((λ p, [p]) <$> phone_numbers) = Some phone_numbers.
Proof.
  induction phone_numbers as [|p phone_numbers IH]; [done |].
  rewrite fmap_cons. cbn [mapM]. rewrite IH. done.
Qed.

(** ** Sample runs *)

(** The scenario of the specification, with the random source that draws
    0, 1, 2, ...: three distinct numbers of the form +1415 and seven
    digits. *)
Example sample_run :
  generate_phone_numbers 3 counting 11 "+1" "415" 3 true true
  = Returned ["+14150123456"; "+14157890123"; "+14154567890"].
Proof. by vm_compute. Qed.

Example sample_run_padded_country_code :
  generate_phone_numbers 3 counting 11 " ++1 " "415" 2 false true
  = Returned ["14150123456"; "14157890123"].
Proof. by vm_compute. Qed.

Example sample_capacity_message :
  message (CannotGenerateUnique 101 2 100)
  = "Cannot generate 101 unique numbers with 2 random digits. Maximum unique combinations = 100.".
Proof. by vm_compute. Qed.

Example sample_file :
  save_to_csv ["+14150123456"; "+14157890123"] "phone_numbers.csv" ∅
  !! "phone_numbers.csv"
  = Some ("Phone Number" +:+ Csv.lineterminator
          +:+ "+14150123456" +:+ Csv.lineterminator
          +:+ "+14157890123" +:+ Csv.lineterminator).
Proof. by vm_compute. Qed.

(** ** Properties of [generate_phone_numbers] *)

(** C1, as stated, fails in two ways on valid configurations: with the
    count -5 the call returns the empty list, which has not -5 elements;
    and with the count 2 and the random source that always draws 0 the
    call returns nothing, however many iterations it is given. *)
Lemma valid_call_need_not_return_count_strings :
  (valid_configuration 11 "+1" "415" (-5) true
   ∧ generate_phone_numbers 0 zeros 11 "+1" "415" (-5) true true
     = Returned []
   ∧ Z.of_nat (length (@nil string)) ≠ -5)
  ∧ (valid_configuration 2 "1" "" 2 true
     ∧ ¬ ∃ fuel results,
           generate_phone_numbers fuel zeros 2 "1" "" 2 true true
           = Returned results
           ∧ Z.of_nat (length results) = 2).
Proof.
  split.
  - split_and!; [| by vm_compute | done].
    repeat split; try (vm_compute; (reflexivity || discriminate)).
    by right.
  - assert (Hvalid : valid_configuration 2 "1" "" 2 true).
    { repeat split; try (vm_compute; (reflexivity || discriminate)).
      by left. }
    split; [done |]. intros (fuel & results & Hrun & _).
    rewrite generate_valid in Hrun by done.
    change (while_loop zeros "1" "" 1 2 true true fuel [] ∅ 0
            = Returned results) in Hrun.
    destruct fuel as [|fuel]; [discriminate Hrun |].
    rewrite while_loop_keep in Hrun;
      [| done | intros _; apply not_elem_of_empty].
    change (while_loop zeros "1" "" 1 2 true true fuel ["+10"]
              (∅ ∪ {[ "10" ]}) 1 = Returned results) in Hrun.
    by rewrite while_loop_zeros_stuck in Hrun.
Qed.

(** C1, as the code has it.  For every valid configuration a call that
    returns, returns a list of exactly [limit] strings, or the empty list
    when [limit] is negative: a run ends in nothing but such a list (no
    error, no other length).  It does end, within [n] iterations, when
    the candidates drawn in the first [n] iterations hold [limit] distinct
    numbers; without [unique] it ends within [limit] iterations whatever
    is drawn; and some random source makes it end within [limit]
    iterations. *)
Theorem generate_returns_exactly_count rng total_length country_code
    local_code limit include_plus unique :
  valid_configuration total_length country_code local_code limit unique →
  (∀ fuel,
      generate_phone_numbers fuel rng total_length country_code local_code
        limit include_plus unique = OutOfFuel
      ∨ ∃ results,
          generate_phone_numbers fuel rng total_length country_code
            local_code limit include_plus unique = Returned results
          ∧ Z.of_nat (length results) = Z.max 0 limit)
  ∧ (∀ n fuel,
        limit ≤ Z.of_nat
                  (distinct
                     (candidates rng (country_digits_of country_code)
                        (local_digits_of local_code)
                        (remaining_length_of total_length country_code
                           local_code) 0 n)) →
        (n ≤ fuel)%nat →
        ∃ results,
          generate_phone_numbers fuel rng total_length country_code
            local_code limit include_plus unique = Returned results
          ∧ Z.of_nat (length results) = Z.max 0 limit)
  ∧ (unique = false →
     ∀ fuel, (Z.to_nat limit ≤ fuel)%nat →
       ∃ results,
         generate_phone_numbers fuel rng total_length country_code
           local_code limit include_plus unique = Returned results
         ∧ Z.of_nat (length results) = Z.max 0 limit)
  ∧ (∃ rng', ∀ fuel, (Z.to_nat limit ≤ fuel)%nat →
       ∃ results,
         generate_phone_numbers fuel rng' total_length country_code
           local_code limit include_plus unique = Returned results
         ∧ Z.of_nat (length results) = Z.max 0 limit).
Proof.
  intros Hvalid. split_and!.
  - intros fuel.
    destruct (generate_phone_numbers fuel rng total_length country_code
                local_code limit include_plus unique) as [results | e |] eqn:Hrun.
    + right. exists results. split; [done |]. by eapply generate_length_max.
    + by apply generate_not_raised in Hrun.
    + by left.
  - intros n fuel Hdistinct Hfuel.
    destruct (generate_returns n fuel rng _ _ _ _ include_plus _
                Hvalid Hdistinct Hfuel) as [results Hrun].
    exists results. split; [done |]. by eapply generate_length_max.
  - intros -> fuel Hfuel.
    destruct (generate_returns_dups fuel rng _ _ _ _ include_plus
                Hvalid Hfuel) as [results Hrun].
    exists results. split; [done |]. by eapply generate_length_max.
  - destruct (generate_returns_for_some_source _ _ _ _ include_plus _ Hvalid)
      as [rng' Hsome].
    exists rng'. intros fuel Hfuel. destruct (Hsome fuel Hfuel) as [results Hrun].
    exists results. split; [done |]. by eapply generate_length_max.
Qed.

Lemma generate_returns_exactly_count_witness :
  ∃ results,
    generate_phone_numbers 3 counting 11 "+1" "415" 3 true true
    = Returned results
    ∧ Z.of_nat (length results) = Z.max 0 3.
Proof.
  assert (Hvalid : valid_configuration 11 "+1" "415" 3 true).
  { repeat split; try (vm_compute; (reflexivity || discriminate)).
    by right. }
  destruct (generate_returns_exactly_count counting 11 "+1" "415" 3 true true
              Hvalid) as (_ & Hreturns & _ & _).
  apply (Hreturns 3%nat 3%nat); [by vm_compute | lia].
Defined.

(** C2.  Under [unique] the returned strings are pairwise distinct, and
    they are the formatted versions of full numbers (country digits, local
    digits and random body, before the separator is added) that are
    pairwise distinct themselves: the loop compares these. *)
Theorem unique_results_pairwise_distinct fuel rng total_length country_code
    local_code limit include_plus results :
  generate_phone_numbers fuel rng total_length country_code local_code limit
    include_plus true = Returned results →
  (∀ i j x y, i ≠ j → results !! i = Some x → results !! j = Some y → x ≠ y)
  ∧ ∃ full_numbers : list string,
      results = formatted include_plus <$> full_numbers
      ∧ ∀ i j x y,
          i ≠ j → full_numbers !! i = Some x → full_numbers !! j = Some y →
          x ≠ y.
Proof.
  intros [_ Hrun]%generate_Returned_inv.
  eapply (while_loop_NoDup _ _ _ _ _ _ _ _ _ _ _ _ []) in Hrun
    as (fulls & -> & Hnd); [| done | done | constructor | by intros x ?%elem_of_nil].
  assert (Hpairs : ∀ l : list string,
             NoDup l →
             ∀ i j x y, i ≠ j → l !! i = Some x → l !! j = Some y → x ≠ y).
  { intros l Hl i j x y Hij Hi Hj ->. apply Hij.
    by eapply NoDup_lookup. }
  split.
  - apply Hpairs. by apply (NoDup_fmap_2 _).
  - exists fulls. split; [done |]. by apply Hpairs.
Qed.

Lemma unique_results_pairwise_distinct_witness :
  generate_phone_numbers 3 counting 11 "+1" "415" 3 true true
  = Returned ["+14150123456"; "+14157890123"; "+14154567890"]
  ∧ ∀ i j x y,
      i ≠ j →
      ["+14150123456"; "+14157890123"; "+14154567890"] !! i = Some x →
      ["+14150123456"; "+14157890123"; "+14154567890"] !! j = Some y →
      x ≠ y.
Proof.
  assert (Hrun : generate_phone_numbers 3 counting 11 "+1" "415" 3 true true
                 = Returned ["+14150123456"; "+14157890123"; "+14154567890"])
    by (vm_compute; reflexivity).
  split; [exact Hrun |].
  exact (proj1 (unique_results_pairwise_distinct 3 counting 11 "+1" "415" 3
                  true _ Hrun)).
Defined.

(** C3.  For every valid configuration, every returned string, with its
    leading separator removed if it has one, is a digit string of length
    [total_length] that starts with the country digits followed by the
    local digits; what follows them is the random body, [remaining_length]
    characters out of 0..9. *)
Theorem results_have_the_format fuel rng total_length country_code local_code
    limit include_plus unique results :
  valid_configuration total_length country_code local_code limit unique →
  generate_phone_numbers fuel rng total_length country_code local_code limit
    include_plus unique = Returned results →
  Forall
    (λ result,
       let digits := strip_separator result in
       let prefix :=
         country_digits_of country_code +:+ local_digits_of local_code in
       Str.isdigit digits = true
       ∧ Str.len digits = total_length
       ∧ Str.startswith prefix digits = true
       ∧ ∃ body,
           digits = prefix +:+ body
           ∧ Str.all_chars is_decimal body = true
           ∧ Str.len body
             = remaining_length_of total_length country_code local_code)
    results.
Proof.
  intros [Hcodes _] [_ Hrun]%generate_Returned_inv.
  eapply while_loop_Forall in Hrun; [done | | constructor].
  intros pos. cbv zeta.
  destruct (candidate_shape rng total_length country_code local_code
              include_plus pos Hcodes) as (body & Heq & Hdec & Hlen & Hdig & Htot).
  rewrite Heq in *. rewrite <- append_assoc. split_and!; try done.
  - by rewrite append_assoc.
  - by rewrite append_assoc.
  - apply prefix_append.
  - by exists body.
Qed.

Lemma results_have_the_format_witness :
  Forall
    (λ result,
       let digits := strip_separator result in
       let prefix := country_digits_of "+1" +:+ local_digits_of "415" in
       Str.isdigit digits = true
       ∧ Str.len digits = 11
       ∧ Str.startswith prefix digits = true
       ∧ ∃ body,
           digits = prefix +:+ body
           ∧ Str.all_chars is_decimal body = true
           ∧ Str.len body = remaining_length_of 11 "+1" "415")
    ["+14150123456"; "+14157890123"; "+14154567890"].
Proof.
  apply (results_have_the_format 3 counting 11 "+1" "415" 3 true true).
  - repeat split; try (vm_compute; (reflexivity || discriminate)). by right.
  - vm_compute. reflexivity.
Defined.

(** C4.  Under [unique], with valid codes and remaining length [r], the
    call fails with the capacity error, which reports [limit], [r] and
    [10 ^ r], exactly when [limit > 10 ^ r]; so it does for
    [limit = 10 ^ r + 1]; and when [limit <= 10 ^ r] the capacity check
    passes: the call goes on to the loop and raises nothing. *)
Theorem capacity_check_rejects_exactly_above_capacity fuel rng total_length
    country_code local_code limit include_plus :
  valid_codes total_length country_code local_code →
  let r := remaining_length_of total_length country_code local_code in
  (10 ^ r < limit →
   generate_phone_numbers fuel rng total_length country_code local_code limit
     include_plus true = Raised (CannotGenerateUnique limit r (10 ^ r)))
  ∧ generate_phone_numbers fuel rng total_length country_code local_code
      (10 ^ r + 1) include_plus true
    = Raised (CannotGenerateUnique (10 ^ r + 1) r (10 ^ r))
  ∧ (limit ≤ 10 ^ r →
     generate_phone_numbers fuel rng total_length country_code local_code
       limit include_plus true
     = while_loop rng (country_digits_of country_code)
         (local_digits_of local_code) r limit include_plus true fuel [] ∅ 0
     ∧ ∀ e,
         generate_phone_numbers fuel rng total_length country_code local_code
           limit include_plus true ≠ Raised e)
  ∧ ((∃ e,
         generate_phone_numbers fuel rng total_length country_code local_code
           limit include_plus true = Raised e
         ∧ kind_of e = CapacityExceeded)
     ↔ 10 ^ r < limit).
Proof.
  intros Hcodes r.
  assert (Habove : ∀ limit',
             10 ^ r < limit' →
             generate_phone_numbers fuel rng total_length country_code
               local_code limit' include_plus true
             = Raised (CannotGenerateUnique limit' r (10 ^ r))).
  { intros limit' Hgt. destruct Hcodes as (Htotal & Hcountry & Hlocal & Hrem).
    unfold generate_phone_numbers.
    fold (country_digits_of country_code) (local_digits_of local_code).
    fold (remaining_length_of total_length country_code local_code). fold r.
    destruct (Z.leb_spec total_length 0); [lia |].
    rewrite Hcountry. simpl.
    assert (Str.truthy (local_digits_of local_code)
            && negb (Str.isdigit (local_digits_of local_code)) = false) as ->.
    { destruct Hlocal as [-> | ->]; [done | by rewrite andb_false_r]. }
    destruct (Z.leb_spec r 0); [unfold r in *; lia |].
    destruct (Z.ltb_spec (10 ^ r) limit'); [done | lia]. }
  assert (Hbelow : limit ≤ 10 ^ r →
                   valid_configuration total_length country_code local_code
                     limit true)
    by (by intros Hle; split).
  split_and!.
  - apply Habove.
  - apply Habove. lia.
  - intros Hle. split.
    + by apply generate_valid, Hbelow.
    + intros e. by apply generate_not_raised, Hbelow.
  - split.
    + intros (e & Hrun & _).
      destruct (Z.lt_ge_cases (10 ^ r) limit) as [Hgt | Hle]; [done |].
      by apply generate_not_raised in Hrun; [| apply Hbelow].
    + intros Hgt. eexists. split; [by apply Habove | done].
Qed.

Lemma capacity_check_rejects_exactly_above_capacity_witness :
  generate_phone_numbers 0 zeros 3 "1" "" 101 true true
  = Raised (CannotGenerateUnique 101 2 100).
Proof.
  refine (proj1 (proj2 (capacity_check_rejects_exactly_above_capacity 0 zeros
                          3 "1" "" 101 true _))).
  repeat split; try (vm_compute; (reflexivity || discriminate)). by left.
Defined.

(** C5, as stated, fails: the country code [++1], two separators and a
    digit, is accepted, and the call returns a number. *)
Lemma double_separator_country_code_is_accepted :
  generate_phone_numbers 1 zeros 11 "++1" "415" 1 true true
  = Returned ["+14150000000"]
  ∧ ¬ ∃ e,
        generate_phone_numbers 1 zeros 11 "++1" "415" 1 true true = Raised e
        ∧ kind_of e = InvalidConfiguration.
Proof.
  split; [by vm_compute |].
  intros (e & Hrun & _). vm_compute in Hrun. discriminate Hrun.
Qed.

(** C5, as the code has it.  Validation removes the white space around the
    country code and then every leading separator, not just one; with a
    positive total length it raises the country-code error exactly when
    what is left is not a digit string.  So a country code made of any
    number of separators followed by digits is validated as those digits:
    the call does what it does for the bare digits and does not raise the
    country-code error. *)
Theorem country_code_loses_every_leading_separator fuel rng total_length
    local_code limit include_plus unique :
  (∀ n digits,
      Str.isdigit digits = true →
      country_digits_of (pluses n +:+ digits) = digits
      ∧ generate_phone_numbers fuel rng total_length (pluses n +:+ digits)
          local_code limit include_plus unique
        = generate_phone_numbers fuel rng total_length digits local_code
            limit include_plus unique
      ∧ generate_phone_numbers fuel rng total_length (pluses n +:+ digits)
          local_code limit include_plus unique
        ≠ Raised CountryCodeNotDigits)
  ∧ (∀ country_code,
        0 < total_length →
        (generate_phone_numbers fuel rng total_length country_code local_code
           limit include_plus unique = Raised CountryCodeNotDigits
         ↔ Str.isdigit (country_digits_of country_code) = false)).
Proof.
  split.
  - intros n digits Hd.
    pose proof (country_digits_of_pluses n digits Hd) as Hn.
    pose proof (country_digits_of_pluses 0 digits Hd) as H0.
    rewrite append_nil in H0. split_and!; [done | |].
    + unfold generate_phone_numbers.
      fold (country_digits_of (pluses n +:+ digits)) (country_digits_of digits).
      by rewrite Hn, H0.
    + apply generate_country_error. by rewrite Hn, Hd.
  - intros country_code Htotal. split.
    + intros Hrun.
      destruct (Str.isdigit (country_digits_of country_code)) eqn:Hd; [| done].
      by apply generate_country_error in Hrun.
    + intros Hnot. unfold generate_phone_numbers.
      fold (country_digits_of country_code).
      destruct (Z.leb_spec total_length 0); [lia |]. by rewrite Hnot.
Qed.

Lemma country_code_loses_every_leading_separator_witness :
  country_digits_of "++1" = "1"
  ∧ generate_phone_numbers 1 zeros 11 "++1" "415" 1 true true
    = generate_phone_numbers 1 zeros 11 "1" "415" 1 true true
  ∧ generate_phone_numbers 1 zeros 11 "++1" "415" 1 true true
    ≠ Raised CountryCodeNotDigits.
Proof.
  exact (proj1 (country_code_loses_every_leading_separator 1 zeros 11 "415" 1
                  true true) 2%nat "1" eq_refl).
Defined.

(** C6.  The call fails with a configuration error whenever
    [total_length <= 0] or the remaining length
    [total_length - len(country_digits) - len(local_digits)] is [<= 0];
    with total length 3, country code 1 and local code 415 it fails
    reporting the remaining length -1; the error is the outcome for every
    bound on the iterations, zero included: it is raised before the loop
    and nothing is returned. *)
Theorem rejects_nonpositive_total_or_remaining_length fuel rng total_length
    country_code local_code limit include_plus unique :
  (total_length ≤ 0
   ∨ remaining_length_of total_length country_code local_code ≤ 0 →
   ∃ e,
     generate_phone_numbers fuel rng total_length country_code local_code
       limit include_plus unique = Raised e
     ∧ kind_of e = InvalidConfiguration)
  ∧ generate_phone_numbers fuel rng 3 "1" "415" limit include_plus unique
    = Raised (TotalLengthTooShort (-1))
  ∧ kind_of (TotalLengthTooShort (-1)) = InvalidConfiguration
  ∧ message (TotalLengthTooShort (-1))
    = "Total length is too short for the specified country and local codes. Need remaining random digits > 0, got -1.".
Proof.
  split_and!; [| done..].
  intros Hbad. unfold generate_phone_numbers.
  fold (country_digits_of country_code) (local_digits_of local_code).
  fold (remaining_length_of total_length country_code local_code).
  destruct (Z.leb_spec total_length 0); [by eexists |].
  destruct (negb _); [by eexists |].
  destruct (_ && _); [by eexists |].
  destruct (Z.leb_spec
              (remaining_length_of total_length country_code local_code) 0);
    [by eexists | lia].
Qed.

Lemma rejects_nonpositive_total_or_remaining_length_witness :
  ∃ e,
    generate_phone_numbers 0 zeros 3 "1" "415" 5 true true = Raised e
    ∧ kind_of e = InvalidConfiguration.
Proof.
  apply (rejects_nonpositive_total_or_remaining_length 0 zeros 3 "1" "415" 5
           true true).
  right. vm_compute. discriminate.
Defined.

(** C7, as stated, fails: the configuration is valid and feasible (two
    numbers wanted, ten possible), yet with the random source that always
    draws 0 no number of iterations lets the call return. *)
Lemma constant_source_never_terminates :
  valid_configuration 2 "1" "" 2 true
  ∧ ¬ ∃ fuel results,
        generate_phone_numbers fuel zeros 2 "1" "" 2 true true
        = Returned results.
Proof.
  assert (Hvalid : valid_configuration 2 "1" "" 2 true).
  { repeat split; try (vm_compute; (reflexivity || discriminate)). by left. }
  split; [done |]. intros (fuel & results & Hrun).
  rewrite generate_valid in Hrun by done.
  change (while_loop zeros "1" "" 1 2 true true fuel [] ∅ 0 = Returned results)
    in Hrun.
  destruct fuel as [|fuel]; [discriminate Hrun |].
  rewrite while_loop_keep in Hrun; [| done | intros _; apply not_elem_of_empty].
  change (while_loop zeros "1" "" 1 2 true true fuel ["+10"] (∅ ∪ {[ "10" ]}) 1
          = Returned results) in Hrun.
  by rewrite while_loop_zeros_stuck in Hrun.
Qed.

(** C7, as the code has it.  On a valid (so feasible) configuration the
    retry loop has no cap and ends as soon as its candidates hold [limit]
    distinct numbers: within [n] iterations for every random source whose
    first [n] candidates do; within [limit] iterations for every random
    source when [unique] is false; and feasibility makes such a source
    exist, the one that counts the bodies up. *)
Theorem retry_loop_ends_once_enough_distinct_candidates total_length
    country_code local_code limit include_plus unique :
  valid_configuration total_length country_code local_code limit unique →
  (∀ rng n fuel,
      limit ≤ Z.of_nat
                (distinct
                   (candidates rng (country_digits_of country_code)
                      (local_digits_of local_code)
                      (remaining_length_of total_length country_code
                         local_code) 0 n)) →
      (n ≤ fuel)%nat →
      ∃ results,
        generate_phone_numbers fuel rng total_length country_code local_code
          limit include_plus unique = Returned results)
  ∧ (unique = false →
     ∀ rng fuel, (Z.to_nat limit ≤ fuel)%nat →
       ∃ results,
         generate_phone_numbers fuel rng total_length country_code local_code
           limit include_plus unique = Returned results)
  ∧ (∃ rng, ∀ fuel, (Z.to_nat limit ≤ fuel)%nat →
       ∃ results,
         generate_phone_numbers fuel rng total_length country_code local_code
           limit include_plus unique = Returned results).
Proof.
  intros Hvalid. split_and!.
  - intros rng n fuel. by apply generate_returns.
  - intros -> rng fuel. by apply generate_returns_dups.
  - by apply generate_returns_for_some_source.
Qed.

Lemma retry_loop_ends_once_enough_distinct_candidates_witness :
  ∃ results,
    generate_phone_numbers 4 counting 11 "+1" "415" 3 true true
    = Returned results.
Proof.
  refine (proj1 (retry_loop_ends_once_enough_distinct_candidates 11 "+1"
                   "415" 3 true true _) counting 3%nat 4%nat _ _).
  - repeat split; try (vm_compute; (reflexivity || discriminate)). by right.
  - by vm_compute.
  - lia.
Defined.

(** C8.  For every valid configuration every returned string starts with
    the separator when [include_plus] is true, and none does when it is
    false. *)
Theorem results_start_with_separator_iff_requested fuel rng total_length
    country_code local_code limit include_plus unique results :
  valid_configuration total_length country_code local_code limit unique →
  generate_phone_numbers fuel rng total_length country_code local_code limit
    include_plus unique = Returned results →
  (include_plus = true →
   Forall (λ result, Str.startswith "+" result = true) results)
  ∧ (include_plus = false →
     Forall (λ result, Str.startswith "+" result = false) results).
Proof.
  intros [(_ & Hcountry & _) _] [_ Hrun]%generate_Returned_inv.
  assert (Forall (λ result, Str.startswith "+" result = include_plus) results)
    as Hall.
  { eapply while_loop_Forall in Hrun; [done | | constructor].
    intros pos. by apply startswith_plus_formatted. }
  split; intros ->; exact Hall.
Qed.

Lemma results_start_with_separator_iff_requested_witness :
  Forall (λ result, Str.startswith "+" result = false)
    ["14150123456"; "14157890123"; "14154567890"].
Proof.
  refine (proj2 (results_start_with_separator_iff_requested 3 counting 11
                   "+1" "415" 3 false true
                   ["14150123456"; "14157890123"; "14154567890"] _ _)
            eq_refl).
  - repeat split; try (vm_compute; (reflexivity || discriminate)). by right.
  - vm_compute. reflexivity.
Defined.

(** ** Property of [save_to_csv] *)

(** C9.  [save_to_csv] leaves in the file, whatever was there before, the
    header record [Phone Number] followed by one record per number with
    the number as its sole field; read back, the file gives these rows,
    and without the header exactly the original strings in their order. *)
Theorem save_to_csv_round_trip (phone_numbers : list string)
    (filename : string) (fs : gmap string string) :
  ∃ text,
    save_to_csv phone_numbers filename fs !! filename = Some text
    ∧ text
      = foldr (λ row rest, Csv.record row +:+ rest) ""
          (["Phone Number"] :: ((λ p, [p]) <$> phone_numbers))
    ∧ Csv.reader text
      = Some (["Phone Number"] :: ((λ p, [p]) <$> phone_numbers))
    ∧ read_phone_numbers filename (save_to_csv phone_numbers filename fs)
      = Some phone_numbers.
Proof.
  assert (Htext :
            Csv.writerows ((λ p, [p]) <$> phone_numbers)
              (Csv.writerow ["Phone Number"] "")
            = Csv.record ["Phone Number"]
              +:+ Csv.writerows ((λ p, [p]) <$> phone_numbers) "").
  { unfold Csv.writerow. rewrite append_nil.
    rewrite <- (append_empty_r (Csv.record _)) at 1. apply writerows_append. }
  assert (Hread :
            Csv.reader
              (Csv.record ["Phone Number"]
               +:+ Csv.writerows ((λ p, [p]) <$> phone_numbers) "")
            = Some (["Phone Number"] :: ((λ p, [p]) <$> phone_numbers))).
  { rewrite reader_stream, read_stream_record, <- reader_stream.
    by rewrite reader_written_rows. }
  eexists. unfold read_phone_numbers, save_to_csv.
  rewrite lookup_insert_eq, Htext. split_and!.
  - done.
  - cbn [foldr]. by rewrite writerows_foldr.
  - exact Hread.
  - simpl. rewrite Hread. simpl. apply mapM_sole_field.
Qed.

(** ** The country code without digits *)

(** C10.  A country code with nothing but white space and separators
    (the empty one included) is rejected with a configuration error: no
    digit is left after stripping, and the empty string is not a digit
    string. *)
Theorem country_code_without_digits_is_rejected fuel rng total_length
    country_code local_code limit include_plus unique :
  Str.all_chars (λ c, Str.char_isspace c || Str.is_plus c) country_code
  = true →
  Str.isdigit (country_digits_of country_code) = false
  ∧ Str.isdigit "" = false
  ∧ ∃ e,
      generate_phone_numbers fuel rng total_length country_code local_code
        limit include_plus unique = Raised e
      ∧ kind_of e = InvalidConfiguration
      ∧ (0 < total_length → e = CountryCodeNotDigits).
Proof.
  intros Hall.
  assert (Hnot : Str.isdigit (country_digits_of country_code) = false).
  { apply not_isdigit_space_plus. unfold country_digits_of, Str.strip.
    by apply lstrip_all_chars, rstrip_all_chars, lstrip_all_chars. }
  split_and!; [done | done |].
  unfold generate_phone_numbers. fold (country_digits_of country_code).
  destruct (Z.leb_spec total_length 0).
  - eexists. split_and!; [done | done | lia].
  - rewrite Hnot. by eexists.
Qed.

Lemma country_code_without_digits_is_rejected_witness :
  ∃ e,
    generate_phone_numbers 5 counting 11 " + " "415" 3 true true = Raised e
    ∧ kind_of e = InvalidConfiguration
    ∧ (0 < 11 → e = CountryCodeNotDigits).
Proof.
  exact (proj2 (proj2 (country_code_without_digits_is_rejected 5 counting 11
                         " + " "415" 3 true true eq_refl))).
Defined.


(** ** More about [generate_phone_numbers] *)

(** The checks in their order: what [generate_phone_numbers] is when each
    check is reached. *)
Lemma generate_checks fuel rng total_length country_code local_code limit
    include_plus unique :
  let country_digits := country_digits_of country_code in
  let local_digits := local_digits_of local_code in
  let r := remaining_length_of total_length country_code local_code in
  generate_phone_numbers fuel rng total_length country_code local_code limit
    include_plus unique
  = if bool_decide (total_length ≤ 0) then Raised TotalLengthNotPositive
    else if negb (Str.isdigit country_digits) then Raised CountryCodeNotDigits
    else if bool_decide (local_digits ≠ "") && negb (Str.isdigit local_digits)
    then Raised LocalCodeNotDigits
    else if bool_decide (r ≤ 0) then Raised (TotalLengthTooShort r)
    else if unique && bool_decide (10 ^ r < limit) then
      Raised (CannotGenerateUnique limit r (10 ^ r))
    else
      while_loop rng country_digits local_digits r limit include_plus unique
        fuel [] ∅ 0.
Proof.
  cbv zeta. unfold generate_phone_numbers.
  fold (country_digits_of country_code) (local_digits_of local_code).
  fold (remaining_length_of total_length country_code local_code).
  destruct (Z.leb_spec total_length 0);
    [by rewrite bool_decide_eq_true_2 | rewrite bool_decide_eq_false_2 by lia].
  destruct (negb _); [done |].
  assert (Str.truthy (local_digits_of local_code)
          = bool_decide (local_digits_of local_code ≠ "")) as ->
    by by destruct (local_digits_of local_code).
  destruct (_ && _); [done |].
  destruct (Z.leb_spec
              (remaining_length_of total_length country_code local_code) 0);
    [by rewrite bool_decide_eq_true_2 | rewrite bool_decide_eq_false_2 by lia].
  destruct unique; [| done]. simpl.
  destruct (Z.ltb_spec
              (10 ^ remaining_length_of total_length country_code local_code)
              limit);
    [by rewrite bool_decide_eq_true_2 | by rewrite bool_decide_eq_false_2 by lia].
Qed.

(** A configuration that is not valid makes the call raise. *)
Lemma invalid_configuration_raises fuel rng total_length country_code
    local_code limit include_plus unique :
  ¬ valid_configuration total_length country_code local_code limit unique →
  ∃ e,
    generate_phone_numbers fuel rng total_length country_code local_code
      limit include_plus unique = Raised e.
Proof.
  intros Hnot. rewrite generate_checks. cbv zeta.
  destruct (bool_decide_reflect (total_length ≤ 0)) as [Htotal | Htotal];
    [by eexists |].
  destruct (Str.isdigit (country_digits_of country_code)) eqn:Hc;
    [| by eexists]. simpl.
  destruct (bool_decide (local_digits_of local_code ≠ "")
            && negb (Str.isdigit (local_digits_of local_code))) eqn:Hl;
    [by eexists |].
  destruct (bool_decide_reflect
              (remaining_length_of total_length country_code local_code ≤ 0))
    as [Hrem | Hrem]; [by eexists |].
  destruct (unique && _) eqn:Hcap; [by eexists |].
  exfalso. apply Hnot. repeat split; [lia | done | | lia |].
  - apply andb_false_iff in Hl as [Hl | Hl].
    + left. apply bool_decide_eq_false in Hl.
      by destruct (decide (local_digits_of local_code = "")).
    + right. by apply negb_false_iff in Hl.
  - intros ->. simpl in Hcap. apply bool_decide_eq_false in Hcap. lia.
Qed.

(** X1.  A call raises an error exactly when the configuration is not
    valid, whatever the random source and the bound on the iterations. *)
Theorem generate_raises_exactly_when_invalid fuel rng total_length
    country_code local_code limit include_plus unique :
  (∃ e,
      generate_phone_numbers fuel rng total_length country_code local_code
        limit include_plus unique = Raised e)
  ↔ ¬ valid_configuration total_length country_code local_code limit unique.
Proof.
  split.
  - intros [e Hrun] Hvalid. by eapply generate_not_raised.
  - apply invalid_configuration_raises.
Qed.

(** Each error with the condition under which it is the one raised. *)
Lemma generate_error_conditions fuel rng total_length
    country_code local_code limit include_plus unique :
  let run :=
    generate_phone_numbers fuel rng total_length country_code local_code
      limit include_plus unique in
  let country_digits := country_digits_of country_code in
  let local_digits := local_digits_of local_code in
  let r := remaining_length_of total_length country_code local_code in
  (run = Raised TotalLengthNotPositive ↔ total_length ≤ 0)
  ∧ (run = Raised CountryCodeNotDigits
     ↔ 0 < total_length ∧ Str.isdigit country_digits = false)
  ∧ (run = Raised LocalCodeNotDigits
     ↔ 0 < total_length ∧ Str.isdigit country_digits = true
       ∧ local_digits ≠ "" ∧ Str.isdigit local_digits = false)
  ∧ (∀ remaining,
        run = Raised (TotalLengthTooShort remaining)
        ↔ 0 < total_length ∧ Str.isdigit country_digits = true
          ∧ (local_digits = "" ∨ Str.isdigit local_digits = true)
          ∧ r ≤ 0 ∧ remaining = r)
  ∧ (∀ count remaining capacity,
        run = Raised (CannotGenerateUnique count remaining capacity)
        ↔ valid_codes total_length country_code local_code
          ∧ unique = true ∧ 10 ^ r < limit
          ∧ count = limit ∧ remaining = r ∧ capacity = 10 ^ r).
Proof.
  cbv zeta. rewrite generate_checks. cbv zeta. unfold valid_codes.
  pose proof (while_loop_not_raised rng (country_digits_of country_code)
                (local_digits_of local_code)
                (remaining_length_of total_length country_code local_code)
                limit include_plus unique fuel [] ∅ 0) as Hloop.
  destruct (bool_decide_reflect (total_length ≤ 0)) as [Htotal | Htotal];
    [split_and!; intros; split; intros; destruct_and?; (done || lia) |].
  destruct (Str.isdigit (country_digits_of country_code)) eqn:Hc; simpl;
    [| split_and!; intros; split; intros; destruct_and?;
       (done || lia || (split; (done || lia)))].
  destruct (bool_decide_reflect (local_digits_of local_code ≠ ""))
    as [Hne | Hempty];
    destruct (Str.isdigit (local_digits_of local_code)) eqn:Hl; simpl.
  all: destruct (bool_decide_reflect
                   (remaining_length_of total_length country_code local_code
                    ≤ 0)) as [Hrem | Hrem].
  all: destruct unique; simpl.
  all: try destruct (bool_decide_reflect
                       (10 ^ remaining_length_of total_length country_code
                                 local_code < limit)) as [Hcap | Hcap].
  all: split_and!; intros; (split; [intros Hrun | intros Hcond]).
  all: try (by apply Hloop in Hrun).
  all: try discriminate Hrun.
  all: try (injection Hrun as <-).
  all: try (injection Hrun as <- <- <-).
  all: destruct_and?; try destruct_or?; subst; try done; try lia.
  all: try (split_and!; (done || lia || auto)).
  all: try (by destruct (decide (local_digits_of local_code = "")); auto).
Qed.

(** The conversion of an integer below the bound. *)
Lemma str_of_int_small (n : Z) :
  Z.abs n < int_str_bound → str_of_int n = Some (Str.of_int n).
Proof.
  intros Hn. unfold str_of_int.
  by destruct (Z.ltb_spec (Z.abs n) int_str_bound); [| lia].
Qed.

Lemma str_of_int_large (n : Z) :
  int_str_bound ≤ Z.abs n → str_of_int n = None.
Proof.
  intros Hn. unfold str_of_int.
  by destruct (Z.ltb_spec (Z.abs n) int_str_bound); [lia |].
Qed.

(** X2.  The error raised is that of the first check that fails, in the
    order total length, country code, local code, remaining length,
    capacity; the local code is at fault when, stripped, it is not empty
    and not a digit string.  The errors of the last two checks have the
    text of the source with the remaining length, the count and the
    capacity in it as long as these have at most 4300 digits; beyond, as
    for a count of [10 ^ 4300] or more, the text is that of the failed
    conversion of the integer. *)
Theorem generate_reports_the_first_failed_check fuel rng total_length
    country_code local_code limit include_plus unique :
  let run :=
    generate_phone_numbers fuel rng total_length country_code local_code
      limit include_plus unique in
  let country_digits := country_digits_of country_code in
  let local_digits := local_digits_of local_code in
  let r := remaining_length_of total_length country_code local_code in
  (run = Raised TotalLengthNotPositive ↔ total_length ≤ 0)
  ∧ (run = Raised CountryCodeNotDigits
     ↔ 0 < total_length ∧ Str.isdigit country_digits = false)
  ∧ (run = Raised LocalCodeNotDigits
     ↔ 0 < total_length ∧ Str.isdigit country_digits = true
       ∧ local_digits ≠ "" ∧ Str.isdigit local_digits = false)
  ∧ (∀ remaining,
        run = Raised (TotalLengthTooShort remaining)
        ↔ 0 < total_length ∧ Str.isdigit country_digits = true
          ∧ (local_digits = "" ∨ Str.isdigit local_digits = true)
          ∧ r ≤ 0 ∧ remaining = r)
  ∧ (∀ count remaining capacity,
        run = Raised (CannotGenerateUnique count remaining capacity)
        ↔ valid_codes total_length country_code local_code
          ∧ unique = true ∧ 10 ^ r < limit
          ∧ count = limit ∧ remaining = r ∧ capacity = 10 ^ r)
  ∧ (∀ remaining,
        run = Raised (TotalLengthTooShort remaining) →
        (- int_str_bound < r →
         message (TotalLengthTooShort remaining)
         = "Total length is too short for the specified country and local codes. "
           +:+ "Need remaining random digits > 0, got " +:+ Str.of_int r
           +:+ ".")
        ∧ (r ≤ - int_str_bound →
           message (TotalLengthTooShort remaining)
           = int_max_str_digits_error))
  ∧ (∀ count remaining capacity,
        run = Raised (CannotGenerateUnique count remaining capacity) →
        (limit < int_str_bound →
         message (CannotGenerateUnique count remaining capacity)
         = "Cannot generate " +:+ Str.of_int limit +:+ " unique numbers with "
           +:+ Str.of_int r +:+ " random digits. "
           +:+ "Maximum unique combinations = " +:+ Str.of_int (10 ^ r)
           +:+ ".")
        ∧ (int_str_bound ≤ limit →
           message (CannotGenerateUnique count remaining capacity)
           = int_max_str_digits_error)).
Proof.
  cbv zeta.
  pose proof (generate_error_conditions fuel rng total_length country_code
                local_code limit include_plus unique)
    as (H1 & H2 & H3 & H4 & H5).
  cbv zeta in H4, H5. split_and!; try done.
  - intros remaining (_ & _ & _ & Hr & ->)%H4. unfold message. split.
    + intros Hsmall. by rewrite str_of_int_small by lia.
    + intros Hlarge. by rewrite str_of_int_large by lia.
  - intros count remaining capacity
      ((_ & _ & _ & Hr) & _ & Hcap & -> & -> & ->)%H5.
    pose proof (Z.pow_gt_lin_r 10 _ ltac:(lia) (Z.lt_le_incl _ _ Hr)) as Hlin.
    unfold message. split.
    + intros Hsmall. by rewrite !str_of_int_small by lia.
    + intros Hlarge. by rewrite (str_of_int_large limit) by lia.
Qed.

(** Without [unique] the loop appends the candidates of its iterations,
    one per missing result. *)
Lemma while_loop_dups_candidates rng country_digits local_digits
    remaining_length limit include_plus fuel results seen pos :
  (Z.to_nat (limit - Z.of_nat (length results)) ≤ fuel)%nat →
  while_loop rng country_digits local_digits remaining_length limit
    include_plus false fuel results seen pos
  = Returned
      (results
       ++ (formatted include_plus
           <$> candidates rng country_digits local_digits remaining_length
                 pos (Z.to_nat (limit - Z.of_nat (length results))))).
Proof.
  revert results seen pos. induction fuel as [|fuel IH];
    intros results seen pos Hfuel.
  - rewrite while_loop_exit by lia.
    replace (Z.to_nat (limit - Z.of_nat (length results))) with 0%nat by lia.
    by rewrite app_nil_r.
  - destruct (Z.ltb_spec (Z.of_nat (length results)) limit) as [Hlt | Hge].
    + rewrite while_loop_keep by done.
      rewrite IH by (rewrite length_app; simpl; lia).
      rewrite length_app. simpl length.
      replace (Z.to_nat (limit - Z.of_nat (length results)))
        with (S (Z.to_nat (limit - Z.of_nat (length results + 1)))) by lia.
      cbn [candidates fmap list_fmap]. by rewrite <- app_assoc.
    + rewrite while_loop_exit by lia.
      replace (Z.to_nat (limit - Z.of_nat (length results))) with 0%nat by lia.
      by rewrite app_nil_r.
Qed.

(** X3.  Without [unique] a call with valid codes returns, within [limit]
    iterations and whatever the count (also above the capacity), the
    numbers made from the successive draws, in the order drawn:
    duplicates are kept. *)
Theorem without_unique_results_are_the_draws_in_order fuel rng total_length
    country_code local_code limit include_plus :
  valid_codes total_length country_code local_code →
  (Z.to_nat limit ≤ fuel)%nat →
  generate_phone_numbers fuel rng total_length country_code local_code limit
    include_plus false
  = Returned
      (formatted include_plus
       <$> candidates rng (country_digits_of country_code)
             (local_digits_of local_code)
             (remaining_length_of total_length country_code local_code) 0
             (Z.to_nat limit)).
Proof.
  intros Hcodes Hfuel. rewrite generate_valid by by split.
  rewrite while_loop_dups_candidates by (simpl; lia).
  simpl. by rewrite Z.sub_0_r.
Qed.

Lemma without_unique_results_are_the_draws_in_order_witness :
  generate_phone_numbers 12 zeros 2 "1" "" 12 true false
  = Returned
      (formatted true
       <$> candidates zeros (country_digits_of "1") (local_digits_of "")
             (remaining_length_of 2 "1" "") 0 (Z.to_nat 12)).
Proof.
  apply (without_unique_results_are_the_draws_in_order 12 zeros 2 "1" "" 12
           true).
  - repeat split; try (vm_compute; (reflexivity || discriminate)). by left.
  - vm_compute. lia.
Defined.

(** Under [unique] the loop appends the first occurrences of the
    candidates of its iterations that are not in [seen], as many as
    results are missing. *)
Lemma while_loop_unique_first_occurrences rng country_digits local_digits
    remaining_length limit include_plus fuel results seen pos out :
  while_loop rng country_digits local_digits remaining_length limit
    include_plus true fuel results seen pos = Returned out →
  out
  = results
    ++ (formatted include_plus
        <$> take (Z.to_nat (limit - Z.of_nat (length results)))
              (first_occurrences seen
                 (candidates rng country_digits local_digits
                    remaining_length pos fuel))).
Proof.
  revert results seen pos. induction fuel as [|fuel IH];
    intros results seen pos Hrun.
  - destruct (Z.ltb_spec (Z.of_nat (length results)) limit) as [Hlt | Hge].
    + by rewrite while_loop_out_of_fuel in Hrun.
    + rewrite while_loop_exit in Hrun by lia. injection Hrun as <-.
      replace (Z.to_nat (limit - Z.of_nat (length results))) with 0%nat by lia.
      by rewrite app_nil_r.
  - destruct (Z.ltb_spec (Z.of_nat (length results)) limit) as [Hlt | Hge].
    + cbn [candidates first_occurrences].
      set (c := full_number_at rng country_digits local_digits
                  remaining_length pos) in *.
      destruct (bool_decide_reflect (c ∈ seen)) as [Hin | Hnot].
      * rewrite while_loop_retry in Hrun by done. by apply IH.
      * rewrite while_loop_keep in Hrun by done.
        apply IH in Hrun. rewrite Hrun, length_app. simpl length.
        replace (Z.to_nat (limit - Z.of_nat (length results)))
          with (S (Z.to_nat (limit - Z.of_nat (length results + 1)))) by lia.
        cbn [take fmap list_fmap]. by rewrite <- app_assoc.
    + rewrite while_loop_exit in Hrun by lia. injection Hrun as <-.
      replace (Z.to_nat (limit - Z.of_nat (length results))) with 0%nat by lia.
      by rewrite app_nil_r.
Qed.

(** X4.  Under [unique] the numbers a call returns are the first [limit]
    distinct candidates of its iterations, in the order of their first
    appearance. *)
Theorem unique_results_are_the_first_distinct_candidates fuel rng
    total_length country_code local_code limit include_plus results :
  generate_phone_numbers fuel rng total_length country_code local_code limit
    include_plus true = Returned results →
  results
  = formatted include_plus
    <$> take (Z.to_nat limit)
          (first_occurrences ∅
             (candidates rng (country_digits_of country_code)
                (local_digits_of local_code)
                (remaining_length_of total_length country_code local_code)
                0 fuel)).
Proof.
  intros [_ Hrun]%generate_Returned_inv.
  apply while_loop_unique_first_occurrences in Hrun.
  simpl in Hrun. by rewrite Z.sub_0_r in Hrun.
Qed.

Lemma unique_results_are_the_first_distinct_candidates_witness :
  ["+110"; "+111"; "+112"]
  = formatted true
    <$> take (Z.to_nat 3)
          (first_occurrences ∅
             (candidates (λ k, k / 2)%nat (country_digits_of "11")
                (local_digits_of "") (remaining_length_of 3 "11" "") 0 6)).
Proof.
  apply (unique_results_are_the_first_distinct_candidates 6 (λ k, k / 2)%nat
           3 "11" "" 3 true).
  vm_compute. reflexivity.
Defined.

(** The loop with the separator is the loop without it, the separator put
    in front of every result. *)
Lemma while_loop_with_separator rng country_digits local_digits
    remaining_length limit unique fuel results seen pos :
  while_loop rng country_digits local_digits remaining_length limit true
    unique fuel (String "+" <$> results) seen pos
  = with_separator
      (while_loop rng country_digits local_digits remaining_length limit
         false unique fuel results seen pos).
Proof.
  revert results seen pos. induction fuel as [|fuel IH];
    intros results seen pos.
  - simpl. rewrite length_fmap. by destruct (_ <? _).
  - simpl. rewrite length_fmap. destruct (_ <? _); [| done].
    destruct (_ && _); [apply IH |].
    rewrite <- IH. by rewrite fmap_app.
Qed.

(** X5.  The separator changes nothing but the first character of the
    results: a call with [include_plus] ends as the call without it does,
    with the same numbers in the same order, the separator in front of
    each. *)
Theorem separator_is_only_a_prefix fuel rng total_length country_code
    local_code limit unique :
  generate_phone_numbers fuel rng total_length country_code local_code limit
    true unique
  = with_separator
      (generate_phone_numbers fuel rng total_length country_code local_code
         limit false unique).
Proof.
  unfold generate_phone_numbers.
  destruct (_ <=? _); [done |]. destruct (negb _); [done |].
  destruct (_ && _); [done |]. destruct (_ <=? _); [done |].
  destruct (_ && _); [done |].
  apply (while_loop_with_separator _ _ _ _ _ _ _ []).
Qed.

(** ** What is written for generated numbers *)

Lemma char_isdigit_not_special (c : ascii) :
  Str.char_isdigit c = true → Csv.special c = false.
Proof.
  destruct c as [[] [] [] [] [] [] [] []]; vm_compute; intros H;
    (discriminate H || reflexivity).
Qed.

Lemma isdigit_not_special (s : string) :
  Str.all_chars Str.char_isdigit s = true →
  Csv.any_char Csv.special s = false.
Proof.
  induction s as [|c s IH]; [done |]. simpl.
  intros [Hc Hs]%andb_true_iff.
  by rewrite (char_isdigit_not_special c Hc), IH.
Qed.

(** A field without special characters is written as it is. *)
Lemma record_plain (p : string) :
  p ≠ "" → Csv.any_char Csv.special p = false →
  Csv.record [p] = p +:+ Csv.lineterminator.
Proof. intros Hne Hp. rewrite record_single, Hp. by destruct p. Qed.

Lemma writerows_plain (lines : list string) :
  Forall (λ p, p ≠ "" ∧ Csv.any_char Csv.special p = false) lines →
  Csv.writerows ((λ p, [p]) <$> lines) ""
  = foldr (λ line rest, line +:+ Csv.lineterminator +:+ rest) "" lines.
Proof.
  rewrite writerows_foldr.
  induction 1 as [|p lines [Hne Hp] _ IH]; [done |].
  rewrite fmap_cons. cbn [foldr]. rewrite IH, record_plain by done.
  by rewrite append_assoc.
Qed.

(** The text [save_to_csv] leaves in the file. *)
Lemma save_to_csv_text (phone_numbers : list string) (filename : string)
    (fs : gmap string string) :
  save_to_csv phone_numbers filename fs !! filename
  = Some (Csv.record ["Phone Number"]
          +:+ Csv.writerows ((λ p, [p]) <$> phone_numbers) "").
Proof.
  unfold save_to_csv. rewrite lookup_insert_eq. f_equal.
  unfold Csv.writerow. rewrite append_nil.
  rewrite <- (append_empty_r (Csv.record _)) at 1. apply writerows_append.
Qed.

(** X6.  The file written for the numbers a call returned has no quoting:
    it is the header line and then each number on a line of its own, every
    line ended by CR LF. *)
Theorem generated_numbers_are_written_one_per_line fuel rng total_length
    country_code local_code limit include_plus unique results filename fs :
  generate_phone_numbers fuel rng total_length country_code local_code limit
    include_plus unique = Returned results →
  save_to_csv results filename fs !! filename
  = Some
      (foldr (λ line rest, line +:+ Csv.lineterminator +:+ rest) ""
         ("Phone Number" :: results)).
Proof.
  intros [[Hcodes _] Hrun]%generate_Returned_inv.
  rewrite save_to_csv_text. f_equal. cbn [foldr].
  rewrite (record_plain "Phone Number") by done.
  rewrite append_assoc. f_equal. f_equal.
  apply writerows_plain.
  eapply while_loop_Forall in Hrun; [done | | constructor].
  intros pos.
  destruct (candidate_shape rng total_length country_code local_code
              include_plus pos Hcodes) as (body & Heq & _ & _ & Hdig & _).
  cbv zeta in Heq, Hdig. unfold full_number_at in *.
  rewrite strip_separator_formatted in Hdig by apply Hcodes.
  set (full := country_digits_of country_code +:+ _) in *.
  assert (Csv.any_char Csv.special full = false)
    by by apply isdigit_not_special, isdigit_all_chars.
  destruct include_plus.
  - change (formatted true full) with (String "+" full).
    split; [done |]. cbn [Csv.any_char].
    by replace (Csv.special "+") with false by reflexivity.
  - change (formatted false full) with full.
    split; [| done]. by destruct full.
Qed.

Lemma generated_numbers_are_written_one_per_line_witness :
  save_to_csv ["+14150123456"; "+14157890123"; "+14154567890"] "out.csv" ∅
  !! "out.csv"
  = Some
      (foldr (λ line rest, line +:+ Csv.lineterminator +:+ rest) ""
         ["Phone Number"; "+14150123456"; "+14157890123"; "+14154567890"]).
Proof.
  apply (generated_numbers_are_written_one_per_line 3 counting 11 "+1" "415"
           3 true true).
  vm_compute. reflexivity.
Defined.

(** ** Stripping twice *)

Lemma lstrip_head (p : ascii → bool) (s : string) :
  match Str.lstrip p s with
  | EmptyString => True
  | String c _ => p c = false
  end.
Proof.
  induction s as [|c s IH]; [done |]. simpl.
  destruct (p c) eqn:Hc; [exact IH | exact Hc].
Qed.

Lemma rstrip_idempotent (p : ascii → bool) (s : string) :
  Str.rstrip p (Str.rstrip p s) = Str.rstrip p s.
Proof.
  induction s as [|c s IH]; [done |]. simpl.
  destruct (Str.rstrip p s) as [|a t] eqn:Hr.
  - destruct (p c) eqn:Hc; [done |]. simpl. by rewrite Hc.
  - change (Str.rstrip p (String c (String a t)))
      with (match Str.rstrip p (String a t) with
            | EmptyString => if p c then EmptyString else String c EmptyString
            | u => String c u
            end).
    by rewrite IH.
Qed.

Lemma rstrip_head (p : ascii → bool) (c : ascii) (s : string) :
  p c = false → ∃ t, Str.rstrip p (String c s) = String c t.
Proof.
  intros Hc. simpl. destruct (Str.rstrip p s); [| by eexists].
  rewrite Hc. by eexists.
Qed.

Lemma strip_idempotent (s : string) : Str.strip (Str.strip s) = Str.strip s.
Proof.
  unfold Str.strip.
  assert (Str.lstrip Str.char_isspace
            (Str.rstrip Str.char_isspace (Str.lstrip Str.char_isspace s))
          = Str.rstrip Str.char_isspace (Str.lstrip Str.char_isspace s))
    as ->.
  { pose proof (lstrip_head Str.char_isspace s) as Hhead.
    destruct (Str.lstrip Str.char_isspace s) as [|c u]; [done |].
    destruct (rstrip_head Str.char_isspace c u Hhead) as [t ->].
    by apply lstrip_keep. }
  apply rstrip_idempotent.
Qed.

(** X7.  White space around the country code and the local code does not
    count: a call with the codes stripped beforehand, as
    [interactive_mode] passes them, is the call with the codes as they
    are. *)
Theorem surrounding_white_space_is_ignored fuel rng total_length
    country_code local_code limit include_plus unique :
  generate_phone_numbers fuel rng total_length (Str.strip country_code)
    (Str.strip local_code) limit include_plus unique
  = generate_phone_numbers fuel rng total_length country_code local_code
      limit include_plus unique.
Proof. unfold generate_phone_numbers. by rewrite !strip_idempotent. Qed.

(** ** The prompts *)

Lemma reprompts_cons (prompt_text line : string) (lines : list string) :
  reprompts prompt_text (line :: lines)
  = Prompt prompt_text :: PleaseEnterValidInteger
    :: reprompts prompt_text lines.
Proof. reflexivity. Qed.

(** The loop of [prompt_int] over lines it skips. *)
Lemma prompt_int_loop_skips (prompt_text : string) (default : option Z)
    (bad lines : list string) (w : World) :
  Forall (skipped default) bad →
  prompt_int_loop prompt_text default (bad ++ lines) w
  = prompt_int_loop prompt_text default lines
      {| stdin := lines; stdout := stdout w ++ reprompts prompt_text bad;
         files := files w |}.
Proof.
  intros Hbad. revert w. induction Hbad as [|line bad [Hint Hdef] _ IH];
    intros w.
  - simpl. rewrite app_nil_r. by destruct lines.
  - cbn [app prompt_int_loop]. cbv zeta.
    assert (match Str.strip line, default with
            | EmptyString, Some _ => False
            | _, _ => True
            end) as Hno.
    { destruct (Str.strip line); [| done].
      by rewrite (Hdef eq_refl). }
    destruct (Str.strip line) as [|c raw] eqn:Hraw.
    + destruct default as [d |]; [done |]. rewrite Hint, IH.
      unfold write. cbn [stdout files]. rewrite reprompts_cons.
      by rewrite <- !app_assoc.
    + rewrite Hint, IH. unfold write. cbn [stdout files].
      rewrite reprompts_cons. destruct default; by rewrite <- !app_assoc.
Qed.

(** [prompt_int] on skipped lines followed by a line it takes. *)
Lemma prompt_int_first_answer (prompt_text : string) (default : option Z)
    (bad : list string) (line : string) (rest : list string) (val : Z)
    (printed : list Printed) (fs : gmap string string) :
  Forall (skipped default) bad →
  answers default line val →
  prompt_int prompt_text default
    {| stdin := bad ++ line :: rest; stdout := printed; files := fs |}
  = Done val
      {| stdin := rest;
         stdout := printed ++ reprompts prompt_text bad ++ [Prompt prompt_text];
         files := fs |}.
Proof.
  intros Hbad Hline. unfold prompt_int. cbn [stdin].
  rewrite prompt_int_loop_skips by done. cbn [prompt_int_loop stdout files].
  cbv zeta. rewrite <- app_assoc.
  destruct Hline as [[-> ->] | [Hdef Hint]]; [done |].
  destruct (Str.strip line) as [|c raw] eqn:Hraw.
  - rewrite (Hdef eq_refl). by rewrite Hint.
  - rewrite Hint. by destruct default.
Qed.

(** X8.  [prompt_int] skips every line that is no integer (and is not the
    empty answer standing for a default), writing the prompt and its
    complaint once for each, and returns the value of the first line it
    takes, leaving the lines after it unread; when it takes none of the
    lines it ends with [EOFError], all of them read. *)
Theorem prompt_int_returns_the_first_integer (prompt_text : string)
    (default : option Z) (bad : list string) (printed : list Printed)
    (fs : gmap string string) :
  Forall (skipped default) bad →
  (∀ line rest val,
      answers default line val →
      prompt_int prompt_text default
        {| stdin := bad ++ line :: rest; stdout := printed; files := fs |}
      = Done val
          {| stdin := rest;
             stdout :=
               printed ++ reprompts prompt_text bad ++ [Prompt prompt_text];
             files := fs |})
  ∧ prompt_int prompt_text default
      {| stdin := bad; stdout := printed; files := fs |}
    = EOFError
        {| stdin := [];
           stdout :=
             printed ++ reprompts prompt_text bad ++ [Prompt prompt_text];
           files := fs |}.
Proof.
  intros Hbad. split.
  - intros line rest val. by apply prompt_int_first_answer.
  - unfold prompt_int. cbn [stdin].
    rewrite <- (app_nil_r bad) at 1. rewrite prompt_int_loop_skips by done.
    cbn [prompt_int_loop stdout files]. by rewrite <- app_assoc.
Qed.

Lemma prompt_int_returns_the_first_integer_witness :
  prompt_int "n: " (Some 10)
    {| stdin := ["ten"; "1.5"; " -7 "; "8"]; stdout := []; files := ∅ |}
  = Done (-7)
      {| stdin := ["8"];
         stdout :=
           [] ++ reprompts "n: " ["ten"; "1.5"] ++ [Prompt "n: "];
         files := ∅ |}.
Proof.
  refine (proj1 (prompt_int_returns_the_first_integer "n: " (Some 10)
                   ["ten"; "1.5"] [] ∅ _) " -7 " ["8"] (-7) _).
  - repeat constructor; by vm_compute.
  - right. split; by vm_compute.
Defined.

(** ** The questions of [interactive_mode] *)

Lemma char_lower_is_n (c : ascii) :
  Py.char_lower c = "n"%char → c = "n"%char ∨ c = "N"%char.
Proof.
  destruct c as [[] [] [] [] [] [] [] []]; vm_compute; intros H;
    (discriminate H || (by left) || (by right)).
Qed.

(** Only the answers n and N are a no. *)
Lemma lower_is_n (s : string) : Py.lower s = "n" ↔ s = "n" ∨ s = "N".
Proof.
  split; [| by intros [-> | ->]].
  destruct s as [|c [|c' s]]; [done | | done].
  simpl. intros [= Hc]. by destruct (char_lower_is_n c Hc) as [-> | ->]; auto.
Qed.

Lemma or_else_empty (x : string) : or_else x "" = x.
Proof. by destruct x. Qed.

(** X9.  Without a country code [interactive_mode] gives up: when the
    answer to the second question is empty or white space it prints that
    the country code is required and exits with status 1, the later
    questions not asked and the lines after the answer not read. *)
Theorem interactive_mode_requires_a_country_code (bad : list string)
    (t c : string) (rest : list string) (T : Z) (printed : list Printed)
    (fs : gmap string string) :
  Forall (skipped None) bad →
  answers None t T →
  Str.strip c = "" →
  let question :=
    "Enter total numeric length of phone number (digits only, exclude '+'): "
  in
  interactive_mode
    {| stdin := bad ++ t :: c :: rest; stdout := printed; files := fs |}
  = SystemExit 1
      {| stdin := rest;
         stdout :=
           (printed ++ [InteractiveBanner]) ++ reprompts question bad
           ++ [Prompt question]
           ++ [Prompt "Enter the country code (e.g., +1, 1, +91, 91): ";
               CountryCodeRequired];
         files := fs |}.
Proof.
  intros Hbad Ht Hc question.
  unfold interactive_mode, mbind, IO_bind, io_bind, print, input, sys_exit,
    write.
  cbn [stdin stdout files].
  rewrite prompt_int_first_answer with (val := T) by done.
  cbn [stdin stdout files]. rewrite Hc. cbn [Str.truthy negb].
  cbn [stdin stdout files]. by rewrite <- !app_assoc.
Qed.

Lemma interactive_mode_requires_a_country_code_witness :
  interactive_mode
    {| stdin := ["eleven"; "11"; "  "; "415"]; stdout := []; files := ∅ |}
  = SystemExit 1
      {| stdin := ["415"];
         stdout :=
           ([] ++ [InteractiveBanner])
           ++ reprompts
                "Enter total numeric length of phone number (digits only, exclude '+'): "
                ["eleven"]
           ++ [Prompt
                 "Enter total numeric length of phone number (digits only, exclude '+'): "]
           ++ [Prompt "Enter the country code (e.g., +1, 1, +91, 91): ";
               CountryCodeRequired];
         files := ∅ |}.
Proof.
  apply (interactive_mode_requires_a_country_code ["eleven"] "11" "  " ["415"]
           11 [] ∅).
  - repeat constructor; by vm_compute.
  - right. split; by vm_compute.
  - by vm_compute.
Defined.

(** [interactive_mode] on answers it takes. *)
Lemma interactive_mode_takes (bad1 bad2 : list string)
    (t c l n f p u : string) (rest : list string) (T N : Z)
    (printed : list Printed) (fs : gmap string string) :
  Forall (skipped None) bad1 → answers None t T →
  Str.strip c ≠ "" →
  Forall (skipped None) bad2 → answers None n N →
  ∃ printed',
    interactive_mode
      {| stdin := bad1 ++ t :: c :: l :: bad2 ++ n :: f :: p :: u :: rest;
         stdout := printed; files := fs |}
    = Done
        {| total := T; country := Str.strip c; local := Str.strip l;
           count := N;
           out :=
             if bool_decide (Str.strip f = "") then "phone_numbers.csv"
             else Str.strip f;
           no_plus := bool_decide (Str.strip p = "n" ∨ Str.strip p = "N");
           no_unique := bool_decide (Str.strip u = "n" ∨ Str.strip u = "N") |}
        {| stdin := rest; stdout := printed'; files := fs |}.
Proof.
  intros Hbad1 Ht Hc Hbad2 Hn.
  unfold interactive_mode, mbind, IO_bind, io_bind, print, input, sys_exit,
    write.
  cbn [stdin stdout files].
  rewrite prompt_int_first_answer with (val := T) by done.
  cbn [stdin stdout files].
  assert (Str.truthy (Str.strip c) = true) as ->
    by by destruct (Str.strip c).
  cbn [negb stdin stdout files].
  rewrite prompt_int_first_answer with (val := N) by done.
  cbn [stdin stdout files mret IO_ret io_ret].
  eexists. f_equal. rewrite !negb_involutive, or_else_empty. f_equal.
  - by destruct (Str.strip f).
  - apply bool_decide_ext, lower_is_n.
  - apply bool_decide_ext, lower_is_n.
Qed.

(** X10.  [interactive_mode], its questions answered, returns the answers:
    the two integers (asked again until given), the codes stripped, the
    default file name for an empty answer, and only the answers n and N
    (white space around them aside) switch the separator or the uniqueness
    off: every other answer, the empty one and a full no included, leaves
    them on.  The seven questions are put in their order after the banner,
    no file is touched and the lines after the answers are left unread. *)
Theorem interactive_mode_returns_the_answers (bad1 bad2 : list string)
    (t c l n f p u : string) (rest : list string) (T N : Z)
    (printed : list Printed) (fs : gmap string string) :
  Forall (skipped None) bad1 → answers None t T →
  Str.strip c ≠ "" →
  Forall (skipped None) bad2 → answers None n N →
  let q_total :=
    "Enter total numeric length of phone number (digits only, exclude '+'): "
  in
  let q_count := "Enter how many phone numbers to generate: " in
  interactive_mode
    {| stdin := bad1 ++ t :: c :: l :: bad2 ++ n :: f :: p :: u :: rest;
       stdout := printed; files := fs |}
  = Done
      {| total := T; country := Str.strip c; local := Str.strip l;
         count := N;
         out :=
           if bool_decide (Str.strip f = "") then "phone_numbers.csv"
           else Str.strip f;
         no_plus := bool_decide (Str.strip p = "n" ∨ Str.strip p = "N");
         no_unique := bool_decide (Str.strip u = "n" ∨ Str.strip u = "N") |}
      {| stdin := rest;
         stdout :=
           printed ++ [InteractiveBanner] ++ reprompts q_total bad1
           ++ [Prompt q_total;
               Prompt "Enter the country code (e.g., +1, 1, +91, 91): ";
               Prompt
                 "Enter the local code (e.g., 415, 011, 020). If none, press Enter: "]
           ++ reprompts q_count bad2
           ++ [Prompt q_count;
               Prompt "Enter output CSV filename (default: phone_numbers.csv): ";
               Prompt "Include '+' sign in output? (Y/n) [default: Y]: ";
               Prompt "Require unique phone numbers? (Y/n) [default: Y]: "];
         files := fs |}.
Proof.
  intros Hbad1 Ht Hc Hbad2 Hn q_total q_count.
  unfold interactive_mode, mbind, IO_bind, io_bind, print, input, sys_exit,
    write.
  cbn [stdin stdout files].
  rewrite prompt_int_first_answer with (val := T) by done.
  cbn [stdin stdout files].
  assert (Str.truthy (Str.strip c) = true) as ->
    by by destruct (Str.strip c).
  cbn [negb stdin stdout files].
  rewrite prompt_int_first_answer with (val := N) by done.
  cbn [stdin stdout files mret IO_ret io_ret].
  rewrite !negb_involutive, or_else_empty. f_equal.
  - f_equal.
    + by destruct (Str.strip f).
    + apply bool_decide_ext, lower_is_n.
    + apply bool_decide_ext, lower_is_n.
  - f_equal. fold q_total q_count. by rewrite <- !app_assoc.
Qed.

Lemma interactive_mode_returns_the_answers_witness :
  ∃ printed',
    interactive_mode
      {| stdin :=
           ["x"] ++ "11" :: " +1 " :: "415" :: [""] ++ "3" :: "" :: "no"
           :: " N " :: ["left"];
         stdout := []; files := ∅ |}
    = Done
        {| total := 11; country := "+1"; local := "415"; count := 3;
           out := "phone_numbers.csv"; no_plus := false; no_unique := true |}
        {| stdin := ["left"]; stdout := printed'; files := ∅ |}.
Proof.
  eexists.
  refine (interactive_mode_returns_the_answers ["x"] [""] "11" " +1 " "415"
            "3" "" "no" " N " ["left"] 11 3 [] ∅ _ _ _ _ _).
  - repeat constructor; by vm_compute.
  - right. split; by vm_compute.
  - by vm_compute.
  - repeat constructor; by vm_compute.
  - right. split; by vm_compute.
Defined.

(** ** The whole run *)

(** Reading back what [save_to_csv] wrote. *)
Lemma read_phone_numbers_saved (phone_numbers : list string)
    (filename : string) (fs : gmap string string) :
  read_phone_numbers filename (save_to_csv phone_numbers filename fs)
  = Some phone_numbers.
Proof.
  unfold read_phone_numbers. rewrite save_to_csv_text. simpl.
  rewrite reader_stream, read_stream_record, <- reader_stream.
  rewrite reader_written_rows. simpl. apply mapM_sole_field.
Qed.








(** [parse_args] on a command line with the total length and the country
    code, without the interactive flag. *)
Lemma parse_args_command_line (argv : CommandLine) (T : Z) (C : string)
    (w : World) :
  arg_interactive argv = false → arg_total argv = Some T →
  arg_country argv = Some C →
  parse_args argv w
  = Done
      {| total := T; country := C; local := arg_local argv;
         count := arg_count argv; out := arg_out argv;
         no_plus := arg_no_plus argv; no_unique := arg_no_unique argv |}
      w.
Proof. unfold parse_args. by intros -> -> ->. Qed.

(** X12.  On a command line that gives the total length and the country
    code, [main] with a configuration that is not valid reads no input,
    writes no file, prints the error of the generator and exits with
    status 1, whatever the random source. *)
Theorem main_rejects_an_invalid_command_line fuel rng opens argv w T C :
  arg_interactive argv = false → arg_total argv = Some T →
  arg_country argv = Some C →
  ¬ valid_configuration T C (arg_local argv) (arg_count argv)
      (negb (arg_no_unique argv)) →
  ∃ e,
    generate_phone_numbers fuel rng T C (arg_local argv) (arg_count argv)
      (negb (arg_no_plus argv)) (negb (arg_no_unique argv)) = Raised e
    ∧ main fuel rng opens argv w
      = SystemExit 1
          {| stdin := stdin w; stdout := stdout w ++ [Error e];
             files := files w |}.
Proof.
  intros Hi Ht Hc Hnot.
  destruct (invalid_configuration_raises fuel rng T C (arg_local argv)
              (arg_count argv) (negb (arg_no_plus argv))
              (negb (arg_no_unique argv)) Hnot) as [e Hrun].
  exists e. split; [done |].
  unfold main, mbind, IO_bind, io_bind.
  rewrite (parse_args_command_line argv T C w) by done.
  cbn [total country local count out no_plus no_unique].
  by rewrite or_else_empty, Hrun.
Qed.

Lemma main_rejects_an_invalid_command_line_witness :
  ∃ e,
    generate_phone_numbers 0 zeros 3 "1" "415" 10 true true = Raised e
    ∧ main 0 zeros (λ _, None)
        {| arg_total := Some 3; arg_country := Some "1"; arg_local := "415";
           arg_count := 10; arg_out := "phone_numbers.csv";
           arg_no_plus := false; arg_no_unique := false;
           arg_interactive := false |}
        {| stdin := ["unread"]; stdout := []; files := ∅ |}
      = SystemExit 1
          {| stdin := ["unread"]; stdout := [] ++ [Error e]; files := ∅ |}.
Proof.
  apply (main_rejects_an_invalid_command_line 0 zeros (λ _, None)
           {| arg_total := Some 3; arg_country := Some "1";
              arg_local := "415"; arg_count := 10;
              arg_out := "phone_numbers.csv"; arg_no_plus := false;
              arg_no_unique := false; arg_interactive := false |}
           {| stdin := ["unread"]; stdout := []; files := ∅ |} 3 "1");
    try reflexivity.
  intros [(_ & _ & _ & Hrem) _]. vm_compute in Hrem. discriminate Hrem.
Defined.

(** X13.  On a command line that gives the total length and the country
    code, when the generation returns, [main] reads no input and tries to
    save.  If the output file can be opened it saves the returned numbers
    under the output name, where they read back as they are, prints the
    success message with their number, which is the count asked for when
    that is not negative, and ends without an exit.  If the open raises,
    as it does for an empty output name, it prints the text of the
    exception after [Error: ], exits with status 1 and leaves the files
    as they were. *)
Theorem main_saves_what_was_generated fuel rng opens argv w T C results :
  arg_interactive argv = false → arg_total argv = Some T →
  arg_country argv = Some C →
  generate_phone_numbers fuel rng T C (arg_local argv) (arg_count argv)
    (negb (arg_no_plus argv)) (negb (arg_no_unique argv)) = Returned results →
  (open_error opens (arg_out argv) = None →
   main fuel rng opens argv w
   = Done tt
       {| stdin := stdin w;
          stdout :=
            stdout w ++ [Success (Z.of_nat (length results)) (arg_out argv)];
          files := save_to_csv results (arg_out argv) (files w) |}
   ∧ read_phone_numbers (arg_out argv)
       (save_to_csv results (arg_out argv) (files w)) = Some results
   ∧ (0 ≤ arg_count argv → Z.of_nat (length results) = arg_count argv))
  ∧ (∀ text,
        open_error opens (arg_out argv) = Some text →
        main fuel rng opens argv w
        = SystemExit 1
            {| stdin := stdin w; stdout := stdout w ++ [SaveError text];
               files := files w |})
  ∧ (arg_out argv = "" → ∃ text, open_error opens (arg_out argv) = Some text).
Proof.
  intros Hi Ht Hc Hrun.
  assert (Hmain :
            main fuel rng opens argv w
            = match open_error opens (arg_out argv) with
              | Some text =>
                  SystemExit 1
                    {| stdin := stdin w; stdout := stdout w ++ [SaveError text];
                       files := files w |}
              | None =>
                  Done tt
                    {| stdin := stdin w;
                       stdout :=
                         stdout w
                         ++ [Success (Z.of_nat (length results))
                               (arg_out argv)];
                       files := save_to_csv results (arg_out argv) (files w) |}
              end).
  { unfold main, mbind, IO_bind, io_bind.
    rewrite (parse_args_command_line argv T C w) by done.
    cbn [total country local count out no_plus no_unique].
    rewrite or_else_empty, Hrun. unfold save.
    by destruct (open_error opens (arg_out argv)). }
  split_and!.
  - intros Hopen. rewrite Hmain, Hopen. split_and!.
    + done.
    + apply read_phone_numbers_saved.
    + intros Hcount. by eapply generate_length.
  - intros text Hopen. by rewrite Hmain, Hopen.
  - intros ->. by eexists.
Qed.

Lemma main_saves_what_was_generated_witness :
  main 3 counting (λ _, None)
    {| arg_total := Some 11; arg_country := Some "+1"; arg_local := "415";
       arg_count := 3; arg_out := "n.csv"; arg_no_plus := false;
       arg_no_unique := false; arg_interactive := false |}
    {| stdin := []; stdout := []; files := ∅ |}
  = Done tt
      {| stdin := [];
         stdout :=
           [] ++ [Success
                    (Z.of_nat
                       (length
                          ["+14150123456"; "+14157890123"; "+14154567890"]))
                    "n.csv"];
         files :=
           save_to_csv ["+14150123456"; "+14157890123"; "+14154567890"]
             "n.csv" ∅ |}.
Proof.
  refine (proj1 (proj1 (main_saves_what_was_generated 3 counting (λ _, None)
                          {| arg_total := Some 11; arg_country := Some "+1";
                             arg_local := "415"; arg_count := 3;
                             arg_out := "n.csv"; arg_no_plus := false;
                             arg_no_unique := false;
                             arg_interactive := false |}
                          {| stdin := []; stdout := []; files := ∅ |} 11 "+1"
                          ["+14150123456"; "+14157890123"; "+14154567890"]
                          eq_refl eq_refl eq_refl _) eq_refl)).
  vm_compute. reflexivity.
Defined.

Example sample_main_cannot_open :
  main 3 counting (λ _, None)
    {| arg_total := Some 11; arg_country := Some "+1"; arg_local := "415";
       arg_count := 3; arg_out := ""; arg_no_plus := false;
       arg_no_unique := false; arg_interactive := false |}
    {| stdin := []; stdout := []; files := ∅ |}
  = SystemExit 1
      {| stdin := [];
         stdout := [SaveError "[Errno 2] No such file or directory: ''"];
         files := ∅ |}.
Proof. by vm_compute. Qed.

Lemma parse_args_asks (argv : CommandLine) :
  asks argv → parse_args argv = interactive_mode.
Proof.
  unfold asks, parse_args. intros [-> | [-> | ->]]; [done | |].
  - by destruct (arg_interactive argv).
  - by destruct (arg_interactive argv), (arg_total argv).
Qed.

(** X14.  With the interactive flag, or without the total length or the
    country code on the command line, [main] takes everything from the
    answers and nothing else from the command line: the questions
    answered and the generation returned for the answers, it tries to save
    under the file name answered (the default one for an empty answer).
    If that file can be opened it saves the returned numbers, prints the
    success message with their number and leaves the lines after the
    answers unread; if the open raises it prints the text of the exception
    after [Error: ], exits with status 1 and leaves the files as they
    were. *)
Theorem main_runs_on_the_answers fuel rng opens argv (bad1 bad2 : list string)
    (t c l n f p u : string) (rest : list string) (T N : Z)
    (printed : list Printed) (fs : gmap string string) results :
  asks argv →
  Forall (skipped None) bad1 → answers None t T →
  Str.strip c ≠ "" →
  Forall (skipped None) bad2 → answers None n N →
  let filename :=
    if bool_decide (Str.strip f = "") then "phone_numbers.csv"
    else Str.strip f in
  let include_plus :=
    negb (bool_decide (Str.strip p = "n" ∨ Str.strip p = "N")) in
  let unique :=
    negb (bool_decide (Str.strip u = "n" ∨ Str.strip u = "N")) in
  generate_phone_numbers fuel rng T (Str.strip c) (Str.strip l) N
    include_plus unique = Returned results →
  ∃ printed',
    (open_error opens filename = None →
     main fuel rng opens argv
       {| stdin := bad1 ++ t :: c :: l :: bad2 ++ n :: f :: p :: u :: rest;
          stdout := printed; files := fs |}
     = Done tt
         {| stdin := rest;
            stdout :=
              printed' ++ [Success (Z.of_nat (length results)) filename];
            files := save_to_csv results filename fs |})
    ∧ (∀ text,
          open_error opens filename = Some text →
          main fuel rng opens argv
            {| stdin :=
                 bad1 ++ t :: c :: l :: bad2 ++ n :: f :: p :: u :: rest;
               stdout := printed; files := fs |}
          = SystemExit 1
              {| stdin := rest; stdout := printed' ++ [SaveError text];
                 files := fs |}).
Proof.
  intros Hasks Hbad1 Ht Hc Hbad2 Hn filename include_plus unique Hrun.
  destruct (interactive_mode_takes bad1 bad2 t c l n f p u rest T N printed
              fs Hbad1 Ht Hc Hbad2 Hn) as [printed' Hmode].
  exists printed'.
  assert (Hmain :
            main fuel rng opens argv
              {| stdin :=
                   bad1 ++ t :: c :: l :: bad2 ++ n :: f :: p :: u :: rest;
                 stdout := printed; files := fs |}
            = match open_error opens filename with
              | Some text =>
                  SystemExit 1
                    {| stdin := rest; stdout := printed' ++ [SaveError text];
                       files := fs |}
              | None =>
                  Done tt
                    {| stdin := rest;
                       stdout :=
                         printed'
                         ++ [Success (Z.of_nat (length results)) filename];
                       files := save_to_csv results filename fs |}
              end).
  { unfold main, mbind, IO_bind, io_bind.
    rewrite parse_args_asks, Hmode by done.
    cbn [total country local count out no_plus no_unique].
    rewrite or_else_empty. fold filename include_plus unique.
    rewrite Hrun. unfold save. by destruct (open_error opens filename). }
  split.
  - intros Hopen. by rewrite Hmain, Hopen.
  - intros text Hopen. by rewrite Hmain, Hopen.
Qed.

Lemma main_runs_on_the_answers_witness :
  ∃ printed',
    main 3 counting (λ name, if bool_decide (name = ".") then Some "x" else None)
      {| arg_total := Some 5; arg_country := None; arg_local := "";
         arg_count := 10; arg_out := "cli.csv"; arg_no_plus := false;
         arg_no_unique := false; arg_interactive := false |}
      {| stdin :=
           [] ++ "11" :: "+1" :: "415" :: ["many"] ++ "3" :: "" :: "n"
           :: "yes" :: [];
         stdout := []; files := ∅ |}
    = Done tt
        {| stdin := [];
           stdout :=
             printed'
             ++ [Success
                   (Z.of_nat
                      (length ["14150123456"; "14157890123"; "14154567890"]))
                   (if bool_decide (Str.strip "" = "") then
                      "phone_numbers.csv"
                    else Str.strip "")];
           files :=
             save_to_csv ["14150123456"; "14157890123"; "14154567890"]
               (if bool_decide (Str.strip "" = "") then "phone_numbers.csv"
                else Str.strip "") ∅ |}.
Proof.
  destruct (main_runs_on_the_answers 3 counting
              (λ name, if bool_decide (name = ".") then Some "x" else None)
              {| arg_total := Some 5; arg_country := None; arg_local := "";
                 arg_count := 10; arg_out := "cli.csv"; arg_no_plus := false;
                 arg_no_unique := false; arg_interactive := false |}
              [] ["many"] "11" "+1" "415" "3" "" "n" "yes" [] 11 3 [] ∅
              ["14150123456"; "14157890123"; "14154567890"])
    as (printed' & Hsaved & _).
  - right. by right.
  - constructor.
  - right. split; by vm_compute.
  - by vm_compute.
  - repeat constructor; by vm_compute.
  - right. split; by vm_compute.
  - vm_compute. reflexivity.
  - exists printed'. apply Hsaved. by vm_compute.
Defined.
